(** * Rogue Tank Royale: the level and spawn generation engine

    A shallow embedding of the level generator (position validators,
    [generateRandomPosition], [generateEnemies], [generateLevel]) and of the
    store operation it feeds ([spawnEnemy]).

    Numbers.  A JavaScript [number] that the generator handles is a finite
    double, hence a rational: coordinates, sizes, radii and random draws are
    [Q], and [+], [-], [*], [/] and comparisons are the exact ones (rounding
    of the double operations is not modelled).  [Math.sqrt] only ever occurs
    in the source as [Math.sqrt(s) < c], [Math.sqrt(s) <= c] or under
    [Math.floor]; those three forms are written with squares and [Z.sqrt]
    and related to the real square root in the section on real numbers.
    [Math.cos] and [Math.sin] are implementation-approximated in ECMAScript
    and stay parameters; [Math.random] is a stream of draws read through a
    cursor that every call advances.  Exact arithmetic agrees with the
    doubles of the code on the grid sizes [generateEnemies] passes (at most
    70); the one place where it decides whether a loop ends, the radius
    counter of the radial tier, is also run on doubles, in [Doubles]. *)

From Stdlib Require Import Reals Qreals Lra.
From Stdlib Require Floats.
From Stdlib Require Import ZArith QArith Qround Qminmax List Bool Lia Lqa.
Import ListNotations.

Local Open Scope Q_scope.

(** ** Numbers *)

Definition Qltb (x y : Q) : bool := negb (Qle_bool y x).

Lemma Qltb_lt (x y : Q) : Qltb x y = true <-> x < y.
Proof.
  unfold Qltb. rewrite negb_true_iff. split; intro H.
  - apply Qnot_le_lt. intro L. apply Qle_bool_iff in L. congruence.
  - destruct (Qle_bool y x) eqn:E; [ | reflexivity ].
    apply Qle_bool_iff in E. exfalso. exact (Qlt_not_le _ _ H E).
Qed.

Lemma Qltb_ge (x y : Q) : Qltb x y = false <-> y <= x.
Proof.
  unfold Qltb. rewrite negb_false_iff. apply Qle_bool_iff.
Qed.

(** [Math.sqrt(s) < c]: for [s >= 0] this is [0 < c] and [s < c*c]. *)
Definition sqrt_lt (s c : Q) : bool := Qltb 0 c && Qltb s (c * c).

(** [Math.sqrt(s) <= c]: for [s >= 0] this is [0 <= c] and [s <= c*c]. *)
Definition sqrt_le (s c : Q) : bool := Qle_bool 0 c && Qle_bool s (c * c).

(** [Math.floor(Math.sqrt(level) * k)] for an integer [level >= 0] and
    [k >= 0]: the largest integer [n] with [n*n <= k*k*level]. *)
Definition floor_sqrt_times (level : Z) (k : Q) : Z :=
  Z.sqrt (Qfloor (k * k * inject_Z level)).

(** [Math.PI], the double nearest to pi. *)
Definition Math_PI : Q := 884279719003555 # 281474976710656.

(** ** Data model *)

(** [[number, number, number]] *)
Definition Vec3 : Type := Q * Q * Q.

Definition vx (p : Vec3) : Q := fst (fst p).
Definition vy (p : Vec3) : Q := snd (fst p).
Definition vz (p : Vec3) : Q := snd p.

(** A terrain obstacle; its [type] is always ["rock"]. *)
Record Obstacle : Type := mkObstacle {
  obstacle_position : Vec3;
  obstacle_size : Q
}.

Inductive EnemyType : Type := tank | turret | bomber.

Definition EnemyType_eqb (a b : EnemyType) : bool :=
  match a, b with
  | tank, tank | turret, turret | bomber, bomber => true
  | _, _ => false
  end.

(** [Omit<Enemy, "id">] *)
Record EnemySpec : Type := mkEnemySpec {
  position : Vec3;
  health : Q;
  type : EnemyType;
  speed : Q
}.

(** An enemy of the store: [spawnEnemy] prints the [id] from one draw of
    [Math.random]; the draw stands for the string. *)
Record Enemy : Type := mkEnemy {
  id : Q;
  enemy_spec : EnemySpec
}.

(** The part of the store the generator reads and writes. *)
Record GameState : Type := mkGameState {
  level : Z;
  enemies : list Enemy;
  terrainObstacles : list Obstacle;
  isTerrainReady : bool;
  safeZoneCenter : Q * Q;
  safeZoneRadius : Q;
  safeZoneActive : bool
}.

(** ** Position validators *)

(** [dx * dx + dz * dz] for the vector from [(x, z)] to [(px, pz)]. *)
Definition dist2 (px pz x z : Q) : Q :=
  (px - x) * (px - x) + (pz - z) * (pz - z).

Definition tooClose (x z minClearance : Q) (obstacle : Obstacle) : bool :=
  sqrt_lt (dist2 (vx (obstacle_position obstacle))
                 (vz (obstacle_position obstacle)) x z)
          (obstacle_size obstacle * 2.5 + minClearance).

Fixpoint isPositionClear (x z : Q) (obstacles : list Obstacle)
    (minClearance : Q) : bool :=
  match obstacles with
  | [] => true
  | obstacle :: rest =>
      if tooClose x z minClearance obstacle then false
      else isPositionClear x z rest minClearance
  end.

Definition isWithinMapBoundaries (x z mapSize : Q) : bool :=
  let halfMapSize := mapSize / 2 in
  let buffer := 2 in
  Qle_bool (- halfMapSize + buffer) x && Qle_bool x (halfMapSize - buffer) &&
  Qle_bool (- halfMapSize + buffer) z && Qle_bool z (halfMapSize - buffer).

(** The separation loop of the sampling tier: [false] as soon as one
    existing position is nearer than [minDistanceFromExisting]. *)
Fixpoint isFarEnough (x z : Q) (existingPositions : list Vec3)
    (minDistanceFromExisting : Q) : bool :=
  match existingPositions with
  | [] => true
  | pos :: rest =>
      if sqrt_lt (dist2 (vx pos) (vz pos) x z) minDistanceFromExisting
      then false
      else isFarEnough x z rest minDistanceFromExisting
  end.

(** The extra validation of [generateEnemies]: clearance
    [obstacle.size * 2.5 + 7] from every obstacle. *)
Fixpoint extraClear (candidate : Vec3) (obstacles : list Obstacle) : bool :=
  match obstacles with
  | [] => true
  | obstacle :: rest =>
      if sqrt_lt (dist2 (vx (obstacle_position obstacle))
                        (vz (obstacle_position obstacle))
                        (vx candidate) (vz candidate))
                 (obstacle_size obstacle * 2.5 + 7)
      then false
      else extraClear candidate rest
  end.

(** ** Loop counters *)

(** [for (i = lo; i <= hi; i += step)]: the values of [i], at most [fuel]
    of them. *)
Fixpoint countUp (fuel : nat) (i hi step : Z) : list Z :=
  match fuel with
  | O => []
  | S fuel' =>
      if (i <=? hi)%Z then i :: countUp fuel' (i + step)%Z hi step else []
  end.

(** [for (r = start; r >= stop; r -= step)]: the values of [r], at most
    [fuel] of them. *)
Fixpoint countDown (fuel : nat) (r stop step : Q) : list Q :=
  match fuel with
  | O => []
  | S fuel' =>
      if Qle_bool stop r then r :: countDown fuel' (r - step) stop step
      else []
  end.

(** [for (a = start; a < bound; a += step)]: the values of [a], at most
    [fuel] of them. *)
Fixpoint countAngles (fuel : nat) (a bound step : Q) : list Q :=
  match fuel with
  | O => []
  | S fuel' =>
      if Qltb a bound then a :: countAngles fuel' (a + step) bound step
      else []
  end.

(** ** Position search *)

Section Generator.

(** [Math.cos] and [Math.sin]. *)
Variables Math_cos Math_sin : Q -> Q.

(** [Math.random]: [rnd k] is the value of the [k]-th call. *)
Variable rnd : nat -> Q.

(** The static fallback list of [generateRandomPosition]. *)
Definition safePositions : list Vec3 :=
  [ (20, 0.5, 20); (-20, 0.5, 20); (-20, 0.5, -20); (20, 0.5, -20);
    (0, 0.5, 0) ].

(** Tier 1, the [while (attempts_count < attempts)] loop: [n] iterations
    are left and [c] is the cursor of [Math.random]. Each iteration draws
    [x] then [z]. *)
Fixpoint sampleTier (n : nat) (gridSize : Q) (existingPositions : list Vec3)
    (minDistanceFromExisting : Q) (obstacles : list Obstacle) (c : nat)
    : option Vec3 * nat :=
  match n with
  | O => (None, c)
  | S n' =>
      let x := (rnd c - 0.5) * gridSize in
      let z := (rnd (S c) - 0.5) * gridSize in
      let y := 0.5 in
      if negb (isWithinMapBoundaries x z 100) then
        sampleTier n' gridSize existingPositions minDistanceFromExisting
                   obstacles (S (S c))
      else if negb (isPositionClear x z obstacles 12) then
        sampleTier n' gridSize existingPositions minDistanceFromExisting
                   obstacles (S (S c))
      else if isFarEnough x z existingPositions minDistanceFromExisting then
        (Some (x, y, z), S (S c))
      else
        sampleTier n' gridSize existingPositions minDistanceFromExisting
                   obstacles (S (S c))
  end.

(** The number of iterations the sampling loop can make: [attempts_count]
    runs through 0, 1, 2, ... while it is below [attempts]. *)
Definition sampleBudget (attempts : Q) : nat := Z.to_nat (Qceiling attempts).

Definition searchGrid : Z := 10.

(** The values of [gridX] and of [gridZ]:
    [for (g = -searchGrid; g <= searchGrid; g += 2)]. *)
Definition gridSteps : list Z := countUp 21 (- searchGrid) searchGrid 2.

Definition gridCoord (gridSize : Q) (g : Z) : Q :=
  (inject_Z g / inject_Z searchGrid) * (gridSize * 0.8).

(** Tier 2, inner loop over [gridZ] for a fixed [gridX]. *)
Fixpoint gridRow (gridSize : Q) (obstacles : list Obstacle) (gridX : Z)
    (gridZs : list Z) : option Vec3 :=
  match gridZs with
  | [] => None
  | gridZ :: rest =>
      let x := gridCoord gridSize gridX in
      let z := gridCoord gridSize gridZ in
      let y := 0.5 in
      if negb (isWithinMapBoundaries x z 100) then
        gridRow gridSize obstacles gridX rest
      else if isPositionClear x z obstacles 4 then Some (x, y, z)
      else gridRow gridSize obstacles gridX rest
  end.

(** Tier 2, outer loop over [gridX]. *)
Fixpoint gridTier (gridSize : Q) (obstacles : list Obstacle)
    (gridXs : list Z) : option Vec3 :=
  match gridXs with
  | [] => None
  | gridX :: rest =>
      match gridRow gridSize obstacles gridX gridSteps with
      | Some p => Some p
      | None => gridTier gridSize obstacles rest
      end
  end.

(** The radii of tier 3:
    [for (radius = gridSize / 2; radius >= 5; radius -= 5)], the
    subtraction being exact ([Doubles.radiusCounter] is the counter on
    doubles). *)
Definition ringFuel (gridSize : Q) : nat := Z.to_nat (Qfloor (gridSize / 10)).

Definition ringRadii (gridSize : Q) : list Q :=
  countDown (ringFuel gridSize) (gridSize / 2) 5 5.

(** The angles of tier 3:
    [for (angle = 0; angle < Math.PI * 2; angle += Math.PI / 8)]. *)
Definition ringAngles : list Q := countAngles 16 0 (Math_PI * 2) (Math_PI / 8).

(** Tier 3, inner loop over the angles of one ring. *)
Fixpoint ringScan (obstacles : list Obstacle) (radius : Q) (angles : list Q)
    : option Vec3 :=
  match angles with
  | [] => None
  | angle :: rest =>
      let x := Math_cos angle * radius in
      let z := Math_sin angle * radius in
      let y := 0.5 in
      if negb (isWithinMapBoundaries x z 100) then
        ringScan obstacles radius rest
      else if isPositionClear x z obstacles 3 then Some (x, y, z)
      else ringScan obstacles radius rest
  end.

(** Tier 3, outer loop over the radii. *)
Fixpoint radialTier (obstacles : list Obstacle) (radii : list Q)
    : option Vec3 :=
  match radii with
  | [] => None
  | radius :: rest =>
      match ringScan obstacles radius ringAngles with
      | Some p => Some p
      | None => radialTier obstacles rest
      end
  end.

(** Tier 4: the first clear position of the static list, else the map
    centre. *)
Fixpoint staticTier (obstacles : list Obstacle) (candidates : list Vec3)
    : Vec3 :=
  match candidates with
  | [] => (0, 0.5, 0)
  | pos :: rest =>
      if isPositionClear (vx pos) (vz pos) obstacles 3 then pos
      else staticTier obstacles rest
  end.

(** The tiers after the sampling loop; they draw no random number. *)
Definition fallbackTiers (gridSize : Q) (obstacles : list Obstacle) : Vec3 :=
  match gridTier gridSize obstacles gridSteps with
  | Some p => p
  | None =>
      match radialTier obstacles (ringRadii gridSize) with
      | Some p => p
      | None => staticTier obstacles safePositions
      end
  end.

(** [generateRandomPosition(gridSize, existingPositions,
    minDistanceFromExisting, attempts)] with the obstacle snapshot of the
    store, started at cursor [c]. *)
Definition generateRandomPosition (gridSize : Q)
    (existingPositions : list Vec3) (minDistanceFromExisting attempts : Q)
    (obstacles : list Obstacle) (c : nat) : Vec3 * nat :=
  match sampleTier (sampleBudget attempts) gridSize existingPositions
                   minDistanceFromExisting obstacles c with
  | (Some p, c') => (p, c')
  | (None, c') => (fallbackTiers gridSize obstacles, c')
  end.

(** ** Difficulty curve *)

Definition baseEnemyCount : Z := 1.

Definition maxEnemies (level : Z) : Z := if (40 <=? level)%Z then 20 else 15.

(** [enemyCount] of the general branch of [generateEnemies]. *)
Definition enemyCount (level : Z) : Z :=
  if (level <=? 10)%Z then
    Z.min (baseEnemyCount + floor_sqrt_times level 1.25) (maxEnemies level)
  else if (level <? 40)%Z then
    Z.min (baseEnemyCount + floor_sqrt_times level 2) (maxEnemies level)
  else
    Z.min (baseEnemyCount + floor_sqrt_times level 2.3) (maxEnemies level).

(** The number of iterations of [for (i = 0; i < config.enemyCount; i++)].
    For a negative level [Math.sqrt] is NaN, so is [enemyCount], and
    [0 < NaN] is false. *)
Definition enemyIterations (level : Z) : nat :=
  if (level <? 0)%Z then O else Z.to_nat (enemyCount level).

(** [Math.min(40 + level * 2, 70)] *)
Definition levelGridSize (level : Z) : Q := Qmin (40 + inject_Z level * 2) 70.

Definition turretProbability (level : Z) : Q :=
  Qmin (0.1 + inject_Z level * 0.02) 0.3.

Definition bomberProbability (level : Z) : Q :=
  if (15 <=? level)%Z then Qmin (0.15 + (inject_Z level - 15) * 0.015) 0.3
  else 0.

Definition maxTurrets : nat := 3.

Definition turretMaxRegenAttempts : nat := 15.

(** The type draw of one enemy: its type, health and speed, and the
    turret count after it. [speed] is declared with the value 1 and the
    turret branch does not assign it. *)
Definition chooseType (level : Z) (random : Q) (turretCount : nat)
    : EnemyType * Q * Q * nat :=
  let speed := 1 in
  if (15 <=? level)%Z && Qltb random (bomberProbability level) then
    (bomber, 40 + inject_Z level * 3, 4.0, turretCount)
  else if Qltb random (turretProbability level + bomberProbability level)
          && (turretCount <? maxTurrets)%nat then
    (turret, 75 + inject_Z level * 9, speed, S turretCount)
  else
    (tank, 50 + inject_Z level * 9, 1.3, turretCount).

(** ** Enemy composition *)

(** [turretPosVec.distanceTo(centerVec) <= safeZoneRadius] *)
Definition insideSafeZone (st : GameState) (p : Vec3) : bool :=
  sqrt_le (dist2 (vx p) (vz p) (fst (safeZoneCenter st))
                 (snd (safeZoneCenter st)))
          (safeZoneRadius st).

(** The position offset from the zone centre by [angle]. *)
Definition offsetFromCenter (st : GameState) (angle : Q) : Vec3 :=
  let radiusOffset := Qmin (safeZoneRadius st * 0.8) 5 in
  (fst (safeZoneCenter st) + Math_cos angle * radiusOffset,
   0.5,
   snd (safeZoneCenter st) + Math_sin angle * radiusOffset).

Definition zoneCenter (st : GameState) : Vec3 :=
  (fst (safeZoneCenter st), 0.5, snd (safeZoneCenter st)).

(** The fallback after the last attempt fell outside the safe zone: one
    draw for the angle, the offset position if it is clear, else the
    centre itself. *)
Definition safeZoneFallback (st : GameState) (c : nat) : Vec3 * nat :=
  let angle := rnd c * Math_PI * 2 in
  let fallbackPosition := offsetFromCenter st angle in
  if extraClear fallbackPosition (terrainObstacles st)
  then (fallbackPosition, S c)
  else (zoneCenter st, S c).

Definition zoneBound (ty : EnemyType) : bool :=
  EnemyType_eqb ty turret || EnemyType_eqb ty tank.

(** [while (finalPosition === null && attempts < turretMaxRegenAttempts)]:
    [remaining] is [turretMaxRegenAttempts - attempts]. *)
Fixpoint findFinal (remaining : nat) (st : GameState) (gridSize : Q)
    (ty : EnemyType) (existingPositions : list Vec3) (c : nat)
    : option Vec3 * nat :=
  match remaining with
  | O => (None, c)
  | S r =>
      let (candidatePosition, c1) :=
        generateRandomPosition gridSize existingPositions 5 300
                               (terrainObstacles st) c in
      if negb (extraClear candidatePosition (terrainObstacles st)) then
        findFinal r st gridSize ty existingPositions c1
      else if zoneBound ty && safeZoneActive st then
        if insideSafeZone st candidatePosition then
          (Some candidatePosition, c1)
        else
          match r with
          | O => let (p, c2) := safeZoneFallback st c1 in (Some p, c2)
          | S _ => findFinal r st gridSize ty existingPositions c1
          end
      else (Some candidatePosition, c1)
  end.

(** One iteration of [for (let i = 0; i < config.enemyCount; i++)]: the
    type draw, the position loop and the emergency position; the enemy
    pushed, the turret count and the cursor after it. *)
Definition enemyStep (lvl : Z) (st : GameState) (gridSize : Q)
    (existingPositions : list Vec3) (turretCount : nat) (c : nat)
    : EnemySpec * nat * nat :=
  let random := rnd c in
  let '(ty, h, sp, turretCount') := chooseType lvl random turretCount in
  let (found, c1) :=
    findFinal turretMaxRegenAttempts st gridSize ty existingPositions
              (S c) in
  let finalPosition :=
    match found with Some p => p | None => (0, 0.5, 0) end in
  (mkEnemySpec finalPosition h ty sp, turretCount', c1).

(** The loop itself, [n] iterations being left: each final position is
    pushed on [existingPositions] and each enemy on [enemies]. *)
Fixpoint enemyLoop (n : nat) (lvl : Z) (st : GameState) (gridSize : Q)
    (existingPositions : list Vec3) (turretCount : nat) (c : nat)
    : list EnemySpec * nat :=
  match n with
  | O => ([], c)
  | S n' =>
      let '(enemy, turretCount', c1) :=
        enemyStep lvl st gridSize existingPositions turretCount c in
      let (rest, c2) :=
        enemyLoop n' lvl st gridSize (existingPositions ++ [position enemy])
                  turretCount' c1 in
      (enemy :: rest, c2)
  end.

(** The loop of the level-1 branch:
    [while (validPosition === null && attempts < maxAttempts)]. *)
Fixpoint initialLoop (remaining : nat) (st : GameState) (gridSize : Q)
    (existingPositions : list Vec3) (c : nat) : option Vec3 * nat :=
  match remaining with
  | O => (None, c)
  | S r =>
      let (candidatePosition, c1) :=
        generateRandomPosition gridSize existingPositions 5 300
                               (terrainObstacles st) c in
      if extraClear candidatePosition (terrainObstacles st)
      then (Some candidatePosition, c1)
      else initialLoop r st gridSize existingPositions c1
  end.

(** [generateEnemies(level, playerPosition)] on the store [st], started at
    cursor [c]. *)
Definition generateEnemies (lvl : Z) (playerPosition : Vec3)
    (st : GameState) (c : nat) : list EnemySpec * nat :=
  if (lvl =? 1)%Z then
    let gridSize := levelGridSize lvl in
    let (found, c1) := initialLoop 30 st gridSize [playerPosition] c in
    let validPosition :=
      match found with Some p => p | None => (20, 0.5, 20) end in
    ([mkEnemySpec validPosition 85 tank 1.3], c1)
  else
    enemyLoop (enemyIterations lvl) lvl st (levelGridSize lvl)
              [playerPosition] O c.

(** ** The store and the orchestrator *)

(** [spawnEnemy(enemy)]: the enemy is appended with an id printed from a
    fresh draw. *)
Definition spawnEnemy (spec : EnemySpec) (st : GameState) (c : nat)
    : GameState * nat :=
  (mkGameState (level st) (enemies st ++ [mkEnemy (rnd c) spec])
               (terrainObstacles st) (isTerrainReady st) (safeZoneCenter st)
               (safeZoneRadius st) (safeZoneActive st),
   S c).

(** [enemies.forEach((enemy) => spawnEnemy(enemy))] *)
Fixpoint spawnAll (specs : list EnemySpec) (st : GameState) (c : nat)
    : GameState * nat :=
  match specs with
  | [] => (st, c)
  | spec :: rest => let (st', c') := spawnEnemy spec st c in spawnAll rest st' c'
  end.

(** The callback [generateEnemiesWhenReady] hands to
    [requestAnimationFrame]: the level and the player position are
    literals, the store is read when the frame runs. *)
Definition frameCallback (st : GameState) (c : nat) : GameState * nat :=
  let (specs, c1) := generateEnemies 1 (0, 0.5, 0) st c in
  spawnAll specs st c1.

(** What a call of [generateLevel] leaves behind. *)
Inductive Pending : Type :=
  | FrameRequested   (* [generateEnemiesWhenReady] ran: a frame callback waits *)
  | Subscribed.      (* a store subscription waits for [isTerrainReady] *)

(** [generateLevel()]: the returned arrays are empty either way. *)
Definition generateLevel (st : GameState)
    : (list EnemySpec * list unit) * Pending :=
  if negb (isTerrainReady st) then (([], []), Subscribed)
  else (([], []), FrameRequested).

(** The subscriber of [generateLevel], called with the new state at every
    change of the store: [Some FrameRequested] when it unsubscribed and
    called [generateEnemiesWhenReady], [None] while it keeps waiting. *)
Definition subscriber (st' : GameState) : option Pending :=
  if isTerrainReady st' then Some FrameRequested else None.

End Generator.

(** * Properties *)

(** ** Fuel of the loop counters

    A counter that stopped before its fuel ran out stopped on its loop
    condition, and more fuel changes nothing. *)

Lemma countUp_fuel_enough (hi step : Z) :
  forall fuel i k, (length (countUp fuel i hi step) < fuel)%nat ->
    countUp (fuel + k) i hi step = countUp fuel i hi step.
Proof.
  induction fuel as [ | fuel IH ]; intros i k H; simpl in *.
  - lia.
  - destruct (i <=? hi)%Z.
    + simpl in H. f_equal. apply IH. lia.
    + reflexivity.
Qed.

Lemma countAngles_fuel_enough (bound step : Q) :
  forall fuel a k, (length (countAngles fuel a bound step) < fuel)%nat ->
    countAngles (fuel + k) a bound step = countAngles fuel a bound step.
Proof.
  induction fuel as [ | fuel IH ]; intros a k H; simpl in *.
  - lia.
  - destruct (Qltb a bound).
    + simpl in H. f_equal. apply IH. lia.
    + reflexivity.
Qed.

Lemma countDown_fuel_enough :
  forall fuel r k, r < 5 * (inject_Z (Z.of_nat fuel) + 1) ->
    countDown (fuel + k) r 5 5 = countDown fuel r 5 5.
Proof.
  induction fuel as [ | fuel IH ]; intros r k H.
  - simpl. destruct k as [ | k ]; [ reflexivity | ]. simpl.
    destruct (Qle_bool 5 r) eqn:E; [ | reflexivity ].
    apply Qle_bool_iff in E. change (inject_Z (Z.of_nat 0)) with 0 in H.
    exfalso. lra.
  - change (S fuel + k)%nat with (S (fuel + k)). simpl.
    destruct (Qle_bool 5 r); [ | reflexivity ].
    f_equal. apply IH.
    rewrite Nat2Z.inj_succ, <- Z.add_1_r, inject_Z_plus in H.
    change (inject_Z 1) with 1 in H. lra.
Qed.

Lemma countDown_length (stop step : Q) :
  forall fuel r, (length (countDown fuel r stop step) <= fuel)%nat.
Proof.
  induction fuel as [ | fuel IH ]; intro r; simpl.
  - lia.
  - destruct (Qle_bool stop r); simpl; [ specialize (IH (r - step)) | ]; lia.
Qed.

(** The grid counter stops on [gridX <= searchGrid], after 11 values. *)
Lemma gridSteps_values :
  gridSteps = [-10; -8; -6; -4; -2; 0; 2; 4; 6; 8; 10]%Z /\
  forall k, countUp (21 + k) (- searchGrid) searchGrid 2 = gridSteps.
Proof.
  split; [ reflexivity | ].
  intro k. apply countUp_fuel_enough. vm_compute. lia.
Qed.

(** The angle counter stops on [angle < Math.PI * 2], after 16 values. *)
Lemma ringAngles_values :
  length ringAngles = 16%nat /\
  forall k, countAngles (16 + k) 0 (Math_PI * 2) (Math_PI / 8) = ringAngles.
Proof.
  split; [ reflexivity | ].
  intros [ | k ].
  - reflexivity.
  - replace (16 + S k)%nat with (17 + k)%nat by lia.
    rewrite countAngles_fuel_enough; [ reflexivity | vm_compute; lia ].
Qed.

(** The radius counter stops on [radius >= 5]. *)
Lemma ringRadii_fuel_enough (gridSize : Q) (k : nat) :
  countDown (ringFuel gridSize + k) (gridSize / 2) 5 5 = ringRadii gridSize.
Proof.
  apply countDown_fuel_enough. unfold ringFuel.
  pose proof (Qlt_floor (gridSize / 10)) as H.
  destruct (Z_le_gt_dec 0 (Qfloor (gridSize / 10))) as [ Hpos | Hneg ].
  - rewrite Z2Nat.id by exact Hpos.
    rewrite inject_Z_plus in H. change (inject_Z 1) with 1 in H.
    assert (E : gridSize / 2 == 5 * (gridSize / 10)) by field.
    rewrite E. lra.
  - assert (Hz : Z.to_nat (Qfloor (gridSize / 10)) = O) by lia.
    rewrite Hz. change (inject_Z (Z.of_nat 0)) with 0.
    assert (Hle : inject_Z (Qfloor (gridSize / 10) + 1) <= 0).
    { change 0 with (inject_Z 0). rewrite <- Zle_Qle. lia. }
    assert (E : gridSize / 2 == 5 * (gridSize / 10)) by field.
    rewrite E. lra.
Qed.

(** ** What each tier of the position search returns *)

(** A point passes the boundary check of the default map ([mapSize] 100,
    buffer 2). *)
Definition withinMap (p : Vec3) : Prop :=
  (- (100 / 2) + 2 <= vx p /\ vx p <= 100 / 2 - 2) /\
  (- (100 / 2) + 2 <= vz p /\ vz p <= 100 / 2 - 2).

Lemma isWithinMapBoundaries_iff (p : Vec3) :
  isWithinMapBoundaries (vx p) (vz p) 100 = true <-> withinMap p.
Proof.
  unfold isWithinMapBoundaries, withinMap. cbv zeta.
  rewrite !andb_true_iff, !Qle_bool_iff. tauto.
Qed.

(** What a candidate accepted by some tier satisfies: the boundary check,
    the obstacle clearance of that tier, and height 0.5. *)
Definition accepted (obstacles : list Obstacle) (minClearance : Q)
    (p : Vec3) : Prop :=
  isWithinMapBoundaries (vx p) (vz p) 100 = true /\
  isPositionClear (vx p) (vz p) obstacles minClearance = true /\
  vy p = 0.5.

Section Tiers.

Variables Math_cos Math_sin : Q -> Q.
Variable rnd : nat -> Q.
Variable obstacles : list Obstacle.

Lemma sampleTier_some (gridSize minDist : Q) (existing : list Vec3) :
  forall n c p c',
    sampleTier rnd n gridSize existing minDist obstacles c = (Some p, c') ->
    accepted obstacles 12 p /\
    isFarEnough (vx p) (vz p) existing minDist = true.
Proof.
  induction n as [ | n IH ]; intros c p c' H; simpl in H.
  - discriminate.
  - destruct (isWithinMapBoundaries _ _ 100) eqn:B; simpl in H;
      [ | eauto ].
    destruct (isPositionClear _ _ obstacles 12) eqn:C; simpl in H;
      [ | eauto ].
    destruct (isFarEnough _ _ existing minDist) eqn:F; [ | eauto ].
    injection H as <- <-. unfold accepted, vx, vy, vz; simpl. auto.
Qed.


Lemma gridRow_some (gridSize : Q) (gridX : Z) :
  forall gridZs p,
    gridRow gridSize obstacles gridX gridZs = Some p ->
    accepted obstacles 4 p.
Proof.
  induction gridZs as [ | gridZ rest IH ]; intros p H; simpl in H.
  - discriminate.
  - destruct (isWithinMapBoundaries _ _ 100) eqn:B; simpl in H; [ | eauto ].
    destruct (isPositionClear _ _ obstacles 4) eqn:C; [ | eauto ].
    injection H as <-. unfold accepted, vx, vy, vz; simpl. auto.
Qed.

Lemma gridTier_some (gridSize : Q) :
  forall gridXs p,
    gridTier gridSize obstacles gridXs = Some p -> accepted obstacles 4 p.
Proof.
  induction gridXs as [ | gridX rest IH ]; intros p H; cbn [gridTier] in H.
  - discriminate.
  - destruct (gridRow gridSize obstacles gridX gridSteps) eqn:R.
    + injection H as <-. eapply gridRow_some; eassumption.
    + eauto.
Qed.

Lemma ringScan_some (radius : Q) :
  forall angles p,
    ringScan Math_cos Math_sin obstacles radius angles = Some p ->
    accepted obstacles 3 p.
Proof.
  induction angles as [ | angle rest IH ]; intros p H; simpl in H.
  - discriminate.
  - destruct (isWithinMapBoundaries _ _ 100) eqn:B; simpl in H; [ | eauto ].
    destruct (isPositionClear _ _ obstacles 3) eqn:C; [ | eauto ].
    injection H as <-. unfold accepted, vx, vy, vz; simpl. auto.
Qed.

Lemma radialTier_some :
  forall radii p,
    radialTier Math_cos Math_sin obstacles radii = Some p ->
    accepted obstacles 3 p.
Proof.
  induction radii as [ | radius rest IH ]; intros p H;
    cbn [radialTier] in H.
  - discriminate.
  - destruct (ringScan Math_cos Math_sin obstacles radius ringAngles) eqn:R.
    + injection H as <-. eapply ringScan_some; eassumption.
    + eauto.
Qed.

(** The static list holds positions of the map, at height 0.5; so does
    the unconditional last resort. *)
Lemma staticTier_withinMap :
  withinMap (staticTier obstacles safePositions) /\
  vy (staticTier obstacles safePositions) = 0.5.
Proof.
  unfold safePositions, staticTier.
  repeat match goal with
         | |- context [ if ?b then _ else _ ] => destruct b
         end;
    (split; [ apply isWithinMapBoundaries_iff; reflexivity | reflexivity ]).
Qed.

Lemma fallbackTiers_withinMap (gridSize : Q) :
  withinMap (fallbackTiers Math_cos Math_sin gridSize obstacles) /\
  vy (fallbackTiers Math_cos Math_sin gridSize obstacles) = 0.5.
Proof.
  unfold fallbackTiers.
  destruct (gridTier gridSize obstacles gridSteps) as [ p | ] eqn:G.
  - apply gridTier_some in G. destruct G as (B & _ & Y).
    split; [ apply isWithinMapBoundaries_iff | ]; assumption.
  - destruct (radialTier Math_cos Math_sin obstacles (ringRadii gridSize))
      as [ p | ] eqn:R.
    + apply radialTier_some in R. destruct R as (B & _ & Y).
      split; [ apply isWithinMapBoundaries_iff | ]; assumption.
    + apply staticTier_withinMap.
Qed.

(** Whatever the tier, the position search returns a position of the map,
    at height 0.5. *)
Lemma generateRandomPosition_withinMap (gridSize minDist attempts : Q)
    (existing : list Vec3) (c : nat) :
  withinMap (fst (generateRandomPosition Math_cos Math_sin rnd gridSize
                    existing minDist attempts obstacles c)) /\
  vy (fst (generateRandomPosition Math_cos Math_sin rnd gridSize
             existing minDist attempts obstacles c)) = 0.5.
Proof.
  unfold generateRandomPosition.
  destruct (sampleTier rnd (sampleBudget attempts) gridSize existing minDist
              obstacles c) as [ [ p | ] c' ] eqn:S; simpl.
  - apply sampleTier_some in S. destruct S as ((B & _ & Y) & _).
    split; [ apply isWithinMapBoundaries_iff | ]; assumption.
  - apply fallbackTiers_withinMap.
Qed.

End Tiers.

(** ** Concrete runs *)

(** A run in which every draw of [Math.random] is 0. *)
Definition zeroDraws : nat -> Q := fun _ => 0.

(** [Math.cos] and [Math.sin] for runs that apply them to the angle 0
    only, where they are 1 and 0. *)
Definition cosAtZero : Q -> Q := fun _ => 1.
Definition sinAtZero : Q -> Q := fun _ => 0.

(** ** The radial tier in double arithmetic

    The counters above are exact. The code runs
    [for (radius = gridSize / 2; radius >= 5; radius -= 5)] on doubles,
    where a subtraction of 5 from a large radius is rounded back to the
    radius itself. This section runs that one loop on the kernel's
    binary64 numbers. *)

Module Doubles.

Import Floats.

(** The rational number a finite double stands for. *)
Definition Q_of_double (f : float) : Q :=
  match Prim2SF f with
  | S754_finite s m e =>
      let v := inject_Z (Zpos m) * Qpower 2 e in
      if s then - v else v
  | _ => 0
  end.

(** [for (radius = start; radius >= 5; radius -= 5)] on doubles: the
    values of [radius], at most [fuel] of them. *)
Fixpoint radiusCounter (fuel : nat) (radius : float) : list float :=
  match fuel with
  | O => []
  | S fuel' =>
      if PrimFloat.leb 5%float radius
      then radius :: radiusCounter fuel' (PrimFloat.sub radius 5%float)
      else []
  end.




(** For the largest grid size [generateEnemies] passes, 70, the double
    counter gives the radii of the exact one and stops on its
    condition. *)
Lemma radiusCounter_grid_70 :
  map (fun r => Qred (Q_of_double r)) (radiusCounter 8 35%float)
  = map Qred (ringRadii 70) /\
  radiusCounter 9 35%float = radiusCounter 8 35%float.
Proof.
  split; vm_compute; reflexivity.
Qed.

(** From 5e17 on the subtraction is absorbed and the counter never
    reaches its condition; nor does it from [Infinity]. *)
Lemma radiusCounter_absorbed (fuel : nat) :
  radiusCounter fuel 5e17%float = repeat 5e17%float fuel /\
  radiusCounter fuel infinity = repeat infinity fuel.
Proof.
  induction fuel as [ | fuel [ IH1 IH2 ] ]; [ split; reflexivity | ].
  split.
  - change (radiusCounter (S fuel) 5e17%float)
      with (5e17%float :: radiusCounter fuel 5e17%float).
    rewrite IH1. reflexivity.
  - change (radiusCounter (S fuel) infinity)
      with (infinity :: radiusCounter fuel infinity).
    rewrite IH2. reflexivity.
Qed.




End Doubles.

(** ** The grid tier *)

(** The values of the grid counter, written out. *)
Definition latticeSteps : list Z := [-10; -8; -6; -4; -2; 0; 2; 4; 6; 8; 10]%Z.

(** The candidate points of the grid tier in the order of the scan:
    [gridX] is the outer index, [gridZ] the inner one. *)
Definition lattice (gridSize : Q) : list (Q * Q) :=
  flat_map
    (fun gridX =>
       map (fun gridZ => (gridCoord gridSize gridX, gridCoord gridSize gridZ))
           latticeSteps)
    latticeSteps.

(** The acceptance test of the grid tier: boundary and clearance 4. *)
Definition passesGrid (obstacles : list Obstacle) (xz : Q * Q) : bool :=
  isWithinMapBoundaries (fst xz) (snd xz) 100 &&
  isPositionClear (fst xz) (snd xz) obstacles 4.

Definition atGround (xz : Q * Q) : Vec3 := (fst xz, 0.5, snd xz).

Lemma find_app_first {A : Type} (f : A -> bool) (l1 l2 : list A) :
  find f (l1 ++ l2) =
  match find f l1 with Some a => Some a | None => find f l2 end.
Proof.
  induction l1 as [ | a l1 IH ]; simpl; [ reflexivity | ].
  destruct (f a); [ reflexivity | exact IH ].
Qed.

Lemma find_first_index {A : Type} (f : A -> bool) :
  forall (l : list A) (i : nat) (a : A),
    nth_error l i = Some a -> f a = true ->
    (forall j b, (j < i)%nat -> nth_error l j = Some b -> f b = false) ->
    find f l = Some a.
Proof.
  induction l as [ | h l IH ]; intros i a N T E.
  - destruct i; discriminate.
  - destruct i as [ | i ]; simpl in *.
    + injection N as ->. rewrite T. reflexivity.
    + rewrite (E O h) by (reflexivity || lia).
      apply (IH i); [ assumption | assumption | ].
      intros j b L Nj. apply (E (S j) b); [ lia | exact Nj ].
Qed.

Lemma gridRow_find (gridSize : Q) (obstacles : list Obstacle) (gridX : Z) :
  forall gridZs,
    gridRow gridSize obstacles gridX gridZs =
    option_map atGround
      (find (passesGrid obstacles)
            (map (fun gridZ =>
                    (gridCoord gridSize gridX, gridCoord gridSize gridZ))
                 gridZs)).
Proof.
  induction gridZs as [ | gridZ rest IH ]; simpl; [ reflexivity | ].
  unfold passesGrid at 1; simpl.
  destruct (isWithinMapBoundaries _ _ 100); simpl; [ | exact IH ].
  destruct (isPositionClear _ _ obstacles 4); [ reflexivity | exact IH ].
Qed.

Lemma gridTier_find (gridSize : Q) (obstacles : list Obstacle) :
  forall gridXs,
    gridTier gridSize obstacles gridXs =
    option_map atGround
      (find (passesGrid obstacles)
            (flat_map
               (fun gridX =>
                  map (fun gridZ =>
                         (gridCoord gridSize gridX, gridCoord gridSize gridZ))
                      gridSteps)
               gridXs)).
Proof.
  induction gridXs as [ | gridX rest IH ]; cbn [gridTier flat_map];
    [ reflexivity | ].
  rewrite find_app_first, gridRow_find, IH.
  destruct (find (passesGrid obstacles) (map _ gridSteps)); reflexivity.
Qed.

(** The lattice is scanned [gridX]-major: the candidate number
    [11 * a + b] has the [a]-th step as [x] and the [b]-th as [z]. *)
Lemma lattice_order (gridSize : Q) (a b : nat) :
  (a < 11)%nat -> (b < 11)%nat ->
  nth_error (lattice gridSize) (11 * a + b) =
  Some (gridCoord gridSize (-10 + 2 * Z.of_nat a),
        gridCoord gridSize (-10 + 2 * Z.of_nat b)).
Proof.
  intros Ha Hb.
  do 11 (destruct a as [ | a ];
         [ do 11 (destruct b as [ | b ]; [ reflexivity | ]); lia | ]).
  lia.
Qed.

(** ** Concrete runs of the grid tier *)

(** A rock of size 16 at the origin, and a rock of size 1 on three of the
    four corners of the lattice of grid size 42. *)
Definition cornerRocks : list Obstacle :=
  [ mkObstacle (0, 0, 0) 16;
    mkObstacle (-33.6, 0, -33.6) 1;
    mkObstacle (-33.6, 0, 33.6) 1;
    mkObstacle (33.6, 0, -33.6) 1 ].

Lemma all_before_fail {A : Type} (f : A -> bool) (l : list A) (i : nat) :
  forallb (fun a => negb (f a)) (firstn i l) = true ->
  forall j b, (j < i)%nat -> nth_error l j = Some b -> f b = false.
Proof.
  revert i. induction l as [ | h l IH ]; intros i H j b L N.
  - destruct j; discriminate.
  - destruct i as [ | i ]; [ lia | ]. simpl in H.
    apply andb_true_iff in H. destruct H as [ Hh Hl ].
    destruct j as [ | j ]; simpl in N.
    + injection N as <-. apply negb_true_iff. exact Hh.
    + apply (IH i Hl j b); [ lia | exact N ].
Qed.

(** C3 (as the code has it). When the sampling tier exhausts its budget,
    the grid tier scans the 11 x 11 lattice of the steps -10, -8, ..., 10
    on each axis, a step [g] standing for the coordinate
    [(g / 10) * (gridSize * 0.8)], with [gridX] as the outer index and
    [gridZ] as the inner one, and returns the first lattice point that
    passes the boundary check and obstacle clearance 4; the existing
    positions and the separation play no part. *)
Theorem grid_tier_first_lattice_point (Math_cos Math_sin : Q -> Q)
    (rnd : nat -> Q) (gridSize : Q) (existingPositions : list Vec3)
    (minDistanceFromExisting attempts : Q) (obstacles : list Obstacle)
    (c c' i : nat) (x z : Q) :
  sampleTier rnd (sampleBudget attempts) gridSize existingPositions
             minDistanceFromExisting obstacles c = (None, c') ->
  nth_error (lattice gridSize) i = Some (x, z) ->
  passesGrid obstacles (x, z) = true ->
  (forall j xz, (j < i)%nat -> nth_error (lattice gridSize) j = Some xz ->
                passesGrid obstacles xz = false) ->
  generateRandomPosition Math_cos Math_sin rnd gridSize existingPositions
    minDistanceFromExisting attempts obstacles c = ((x, 0.5, z), c') /\
  length (lattice gridSize) = 121%nat /\
  (forall a b, (a < 11)%nat -> (b < 11)%nat ->
     nth_error (lattice gridSize) (11 * a + b) =
     Some (gridCoord gridSize (-10 + 2 * Z.of_nat a),
           gridCoord gridSize (-10 + 2 * Z.of_nat b))).
Proof.
  intros S N P E.
  split; [ | split; [ reflexivity | intros a b; apply lattice_order ] ].
  unfold generateRandomPosition. rewrite S. unfold fallbackTiers.
  rewrite gridTier_find.
  change (flat_map _ gridSteps) with (lattice gridSize).
  rewrite (find_first_index (passesGrid obstacles) (lattice gridSize) i
             (x, z) N P E).
  reflexivity.
Qed.

Lemma grid_tier_first_lattice_point_witness :
  generateRandomPosition cosAtZero sinAtZero zeroDraws 42 [(0, 0.5, 0)] 5 300
    cornerRocks 0 = ((gridCoord 42 10, 0.5, gridCoord 42 10), 600%nat) /\
  length (lattice 42) = 121%nat /\
  (forall a b, (a < 11)%nat -> (b < 11)%nat ->
     nth_error (lattice 42) (11 * a + b) =
     Some (gridCoord 42 (-10 + 2 * Z.of_nat a),
           gridCoord 42 (-10 + 2 * Z.of_nat b))).
Proof.
  apply (grid_tier_first_lattice_point cosAtZero sinAtZero zeroDraws 42
           [(0, 0.5, 0)] 5 300 cornerRocks 0 600 120).
  - vm_compute. reflexivity.
  - reflexivity.
  - vm_compute. reflexivity.
  - apply all_before_fail. vm_compute. reflexivity.
Defined.

(** C3 (as the claim states it) fails: with grid size 42 and the rocks of
    [cornerRocks] the sampling tier is exhausted and the grid tier returns
    the point (33.6, 0.5, 33.6), which is candidate number 121 of the scan
    (index 120) and differs from each of the 120 candidates rejected
    before it; a lattice of 10 x 10 points has no such candidate. *)
Lemma grid_tier_scans_121_points :
  fst (generateRandomPosition cosAtZero sinAtZero zeroDraws 42 [(0, 0.5, 0)]
         5 300 cornerRocks 0) = (gridCoord 42 10, 0.5, gridCoord 42 10) /\
  gridCoord 42 10 == 33.6 /\
  nth_error (lattice 42) 120 = Some (gridCoord 42 10, gridCoord 42 10) /\
  forallb (fun xz => negb (Qeq_bool (fst xz) (gridCoord 42 10) &&
                           Qeq_bool (snd xz) (gridCoord 42 10)))
          (firstn 120 (lattice 42)) = true /\
  forallb (fun xz => negb (passesGrid cornerRocks xz))
          (firstn 120 (lattice 42)) = true.
Proof.
  repeat split; vm_compute; reflexivity.
Qed.

(** ** The square root, over the reals

    The three forms in which [Math.sqrt] occurs, related to [sqrt] of the
    real numbers. *)

Lemma Q2R_inject_Z (z : Z) : Q2R (inject_Z z) = IZR z.
Proof.
  unfold Q2R. simpl. rewrite Rinv_1. apply Rmult_1_r.
Qed.

Lemma sq_le_le (a b : R) :
  (0 <= a)%R -> (0 <= b)%R -> (a * a <= b * b)%R -> (a <= b)%R.
Proof. intros. Lra.nra. Qed.

Lemma sq_lt_lt (a b : R) :
  (0 <= a)%R -> (0 <= b)%R -> (a * a < b * b)%R -> (a < b)%R.
Proof. intros. Lra.nra. Qed.

(** [sqrt_lt s c] is [Math.sqrt(s) < c]. *)
Lemma sqrt_lt_real (s c : Q) :
  0 <= s -> (sqrt_lt s c = true <-> (sqrt (Q2R s) < Q2R c)%R).
Proof.
  intro Hs. apply Qle_Rle in Hs. change (Q2R 0) with (0 / 1)%R in Hs.
  assert (Hs' : (0 <= Q2R s)%R) by Lra.lra.
  pose proof (sqrt_pos (Q2R s)) as Hp.
  pose proof (sqrt_sqrt (Q2R s) Hs') as Hq.
  unfold sqrt_lt. rewrite andb_true_iff, !Qltb_lt. split.
  - intros [ Hc Hlt ]. apply Qlt_Rlt in Hc, Hlt.
    rewrite Q2R_mult in Hlt. change (Q2R 0) with (0 / 1)%R in Hc.
    apply sq_lt_lt; [ exact Hp | Lra.lra | ]. rewrite Hq. exact Hlt.
  - intro H. split.
    + apply Rlt_Qlt. change (Q2R 0) with (0 / 1)%R. Lra.lra.
    + apply Rlt_Qlt. rewrite Q2R_mult. rewrite <- Hq. Lra.nra.
Qed.

(** [sqrt_le s c] is [Math.sqrt(s) <= c]. *)
Lemma sqrt_le_real (s c : Q) :
  0 <= s -> (sqrt_le s c = true <-> (sqrt (Q2R s) <= Q2R c)%R).
Proof.
  intro Hs. apply Qle_Rle in Hs. change (Q2R 0) with (0 / 1)%R in Hs.
  assert (Hs' : (0 <= Q2R s)%R) by Lra.lra.
  pose proof (sqrt_pos (Q2R s)) as Hp.
  pose proof (sqrt_sqrt (Q2R s) Hs') as Hq.
  unfold sqrt_le. rewrite andb_true_iff, !Qle_bool_iff. split.
  - intros [ Hc Hle ]. apply Qle_Rle in Hc, Hle.
    rewrite Q2R_mult in Hle. change (Q2R 0) with (0 / 1)%R in Hc.
    apply sq_le_le; [ exact Hp | Lra.lra | ]. rewrite Hq. exact Hle.
  - intro H. split.
    + apply Rle_Qle. change (Q2R 0) with (0 / 1)%R. Lra.lra.
    + apply Rle_Qle. rewrite Q2R_mult. rewrite <- Hq. Lra.nra.
Qed.

Lemma Qsquare_nonneg (a : Q) : 0 <= a * a.
Proof.
  destruct (Qlt_le_dec a 0) as [ N | P ].
  - setoid_replace (a * a) with ((- a) * (- a)) by ring.
    apply Qmult_le_0_compat; lra.
  - apply Qmult_le_0_compat; exact P.
Qed.

Lemma dist2_nonneg (px pz x z : Q) : 0 <= dist2 px pz x z.
Proof.
  unfold dist2.
  pose proof (Qsquare_nonneg (px - x)). pose proof (Qsquare_nonneg (pz - z)).
  lra.
Qed.

(** [floor_sqrt_times level k] is [Math.floor(Math.sqrt(level) * k)]. *)
Lemma floor_sqrt_times_real (lvl : Z) (k : Q) :
  (0 <= lvl)%Z -> 0 <= k ->
  floor_sqrt_times lvl k = Zfloor (sqrt (IZR lvl) * Q2R k).
Proof.
  intros Hl Hk. unfold floor_sqrt_times.
  set (q := k * k * inject_Z lvl).
  assert (Hq : 0 <= q).
  { unfold q. assert (0 <= inject_Z lvl).
    { change 0 with (inject_Z 0). rewrite <- Zle_Qle. exact Hl. }
    apply Qmult_le_0_compat; [ apply Qsquare_nonneg | assumption ]. }
  assert (Hm : (0 <= Qfloor q)%Z).
  { change 0%Z with (Qfloor 0). apply Qfloor_resp_le. exact Hq. }
  pose proof (Z.sqrt_spec (Qfloor q) Hm) as [ Hlo Hhi ].
  pose proof (Z.sqrt_nonneg (Qfloor q)) as Hn.
  set (n := Z.sqrt (Qfloor q)) in *.
  pose proof (Qfloor_le q) as Fl. pose proof (Qlt_floor q) as Fu.
  assert (Rlo : (IZR n * IZR n <= Q2R q)%R).
  { rewrite <- mult_IZR. apply IZR_le in Hlo.
    apply Qle_Rle in Fl. rewrite Q2R_inject_Z in Fl. Lra.lra. }
  assert (Rhi : (Q2R q < (IZR n + 1) * (IZR n + 1))%R).
  { assert (H1 : (Qfloor q + 1 <= Z.succ n * Z.succ n)%Z) by lia.
    apply IZR_le in H1. rewrite mult_IZR, succ_IZR in H1.
    apply Qlt_Rlt in Fu. rewrite Q2R_inject_Z in Fu. Lra.lra. }
  assert (Eq : Q2R q = (Q2R k * Q2R k * IZR lvl)%R).
  { unfold q. rewrite !Q2R_mult, Q2R_inject_Z. reflexivity. }
  apply IZR_le in Hl, Hn. apply Qle_Rle in Hk.
  change (Q2R 0) with (0 / 1)%R in Hk.
  assert (Hk' : (0 <= Q2R k)%R) by Lra.lra.
  pose proof (sqrt_pos (IZR lvl)) as Sp.
  pose proof (sqrt_sqrt (IZR lvl) Hl) as Ss.
  assert (Y2 : ((sqrt (IZR lvl) * Q2R k) * (sqrt (IZR lvl) * Q2R k)
                = Q2R q)%R).
  { rewrite Eq.
    replace ((sqrt (IZR lvl) * Q2R k) * (sqrt (IZR lvl) * Q2R k))%R
      with ((sqrt (IZR lvl) * sqrt (IZR lvl)) * (Q2R k * Q2R k))%R by ring.
    rewrite Ss. ring. }
  assert (Y0 : (0 <= sqrt (IZR lvl) * Q2R k)%R)
    by (apply Rmult_le_pos; assumption).
  symmetry. apply Zfloor_eq. split.
  - apply sq_le_le; [ exact Hn | exact Y0 | ]. rewrite Y2. exact Rlo.
  - apply sq_lt_lt; [ exact Y0 | Lra.lra | ]. rewrite Y2. exact Rhi.
Qed.

(** ** The difficulty curve *)

(** The curve in the words of the specification, over the real numbers:
    the factor [k], the cap, and [min(1 + floor(sqrt(level) * k), cap)]. *)
Definition curveFactor (lvl : Z) : R :=
  if (lvl <=? 10)%Z then (5 / 4)%R
  else if (lvl <? 40)%Z then 2%R
  else (23 / 10)%R.

Definition curveCap (lvl : Z) : Z := if (lvl <? 40)%Z then 15%Z else 20%Z.

Definition curveCount (lvl : Z) : Z :=
  Z.min (1 + Zfloor (sqrt (IZR lvl) * curveFactor lvl)) (curveCap lvl).

(** The number of specs of one pass: 1 in the level-1 branch of
    [generateEnemies], [enemyCount] in the general branch. *)
Definition enemyCountForLevel (lvl : Z) : Z :=
  if (lvl =? 1)%Z then 1%Z else enemyCount lvl.

Lemma enemyCount_curve (lvl : Z) :
  (0 <= lvl)%Z -> enemyCount lvl = curveCount lvl.
Proof.
  intro H. unfold enemyCount, curveCount, curveFactor, curveCap, maxEnemies,
    baseEnemyCount.
  destruct (lvl <=? 10)%Z eqn:E1; [ | destruct (lvl <? 40)%Z eqn:E2 ].
  - assert (E2 : (lvl <? 40)%Z = true) by lia.
    assert (E3 : (40 <=? lvl)%Z = false) by lia.
    rewrite E2, E3, floor_sqrt_times_real by (assumption || lra).
    replace (Q2R 1.25) with (5 / 4)%R
      by (unfold Q2R; simpl; Lra.lra).
    reflexivity.
  - assert (E3 : (40 <=? lvl)%Z = false) by lia.
    rewrite E3, floor_sqrt_times_real by (assumption || lra).
    replace (Q2R 2) with 2%R by (unfold Q2R; simpl; Lra.lra).
    reflexivity.
  - assert (E3 : (40 <=? lvl)%Z = true) by lia.
    rewrite E3, floor_sqrt_times_real by (assumption || lra).
    replace (Q2R 2.3) with (23 / 10)%R
      by (unfold Q2R; simpl; Lra.lra).
    reflexivity.
Qed.

Lemma floor_sqrt_times_mono (k : Q) (a b : Z) :
  (0 <= a <= b)%Z -> (floor_sqrt_times a k <= floor_sqrt_times b k)%Z.
Proof.
  intros [ Ha Hab ]. unfold floor_sqrt_times.
  apply Z.sqrt_le_mono, Qfloor_resp_le.
  rewrite !(Qmult_comm (k * k)).
  apply Qmult_le_compat_r; [ | apply Qsquare_nonneg ].
  rewrite <- Zle_Qle. exact Hab.
Qed.

Lemma enemyCount_low (lvl : Z) :
  (0 <= lvl <= 10)%Z -> (1 <= enemyCount lvl <= 4)%Z.
Proof.
  intro H. unfold enemyCount, maxEnemies, baseEnemyCount.
  replace (lvl <=? 10)%Z with true by lia.
  replace (40 <=? lvl)%Z with false by lia.
  pose proof (floor_sqrt_times_mono 1.25 0 lvl ltac:(lia)) as L.
  pose proof (floor_sqrt_times_mono 1.25 lvl 10 ltac:(lia)) as U.
  change (floor_sqrt_times 0 1.25) with 0%Z in L.
  change (floor_sqrt_times 10 1.25) with 3%Z in U. lia.
Qed.

Lemma enemyCount_mid (lvl : Z) :
  (11 <= lvl < 40)%Z -> (7 <= enemyCount lvl <= 13)%Z.
Proof.
  intro H. unfold enemyCount, maxEnemies, baseEnemyCount.
  replace (lvl <=? 10)%Z with false by lia.
  replace (lvl <? 40)%Z with true by lia.
  replace (40 <=? lvl)%Z with false by lia.
  pose proof (floor_sqrt_times_mono 2 11 lvl ltac:(lia)) as L.
  pose proof (floor_sqrt_times_mono 2 lvl 39 ltac:(lia)) as U.
  change (floor_sqrt_times 11 2) with 6%Z in L.
  change (floor_sqrt_times 39 2) with 12%Z in U. lia.
Qed.

Lemma enemyCount_high (lvl : Z) :
  (40 <= lvl)%Z -> (15 <= enemyCount lvl <= 20)%Z.
Proof.
  intro H. unfold enemyCount, maxEnemies, baseEnemyCount.
  replace (lvl <=? 10)%Z with false by lia.
  replace (lvl <? 40)%Z with false by lia.
  replace (40 <=? lvl)%Z with true by lia.
  pose proof (floor_sqrt_times_mono 2.3 40 lvl ltac:(lia)) as L.
  change (floor_sqrt_times 40 2.3) with 14%Z in L. lia.
Qed.

Lemma enemyCount_mono (a b : Z) :
  (0 <= a <= b)%Z -> (enemyCount a <= enemyCount b)%Z.
Proof.
  intros [ Ha Hab ].
  destruct (Z_le_gt_dec a 10) as [ A1 | A1 ];
    [ | destruct (Z_lt_ge_dec a 40) as [ A2 | A2 ] ];
    (destruct (Z_le_gt_dec b 10) as [ B1 | B1 ];
     [ | destruct (Z_lt_ge_dec b 40) as [ B2 | B2 ] ]);
    try lia;
    try (pose proof (enemyCount_low a ltac:(lia)));
    try (pose proof (enemyCount_mid a ltac:(lia)));
    try (pose proof (enemyCount_high a ltac:(lia)));
    try (pose proof (enemyCount_low b ltac:(lia)));
    try (pose proof (enemyCount_mid b ltac:(lia)));
    try (pose proof (enemyCount_high b ltac:(lia)));
    try lia.
  - unfold enemyCount, maxEnemies.
    replace (a <=? 10)%Z with true by lia.
    replace (b <=? 10)%Z with true by lia.
    replace (40 <=? a)%Z with false by lia.
    replace (40 <=? b)%Z with false by lia.
    pose proof (floor_sqrt_times_mono 1.25 a b ltac:(lia)). lia.
  - unfold enemyCount, maxEnemies.
    replace (a <=? 10)%Z with false by lia.
    replace (b <=? 10)%Z with false by lia.
    replace (a <? 40)%Z with true by lia.
    replace (b <? 40)%Z with true by lia.
    replace (40 <=? a)%Z with false by lia.
    replace (40 <=? b)%Z with false by lia.
    pose proof (floor_sqrt_times_mono 2 a b ltac:(lia)). lia.
  - unfold enemyCount, maxEnemies.
    replace (a <=? 10)%Z with false by lia.
    replace (b <=? 10)%Z with false by lia.
    replace (a <? 40)%Z with false by lia.
    replace (b <? 40)%Z with false by lia.
    replace (40 <=? a)%Z with true by lia.
    replace (40 <=? b)%Z with true by lia.
    pose proof (floor_sqrt_times_mono 2.3 a b ltac:(lia)). lia.
Qed.

(** ** The enemy loop *)

Section Composition.

Variables Math_cos Math_sin : Q -> Q.
Variable rnd : nat -> Q.
Variable lvl : Z.
Variable st : GameState.
Variable gridSize : Q.

(** A property of every enemy one iteration can push holds for every
    enemy of the list. *)
Lemma enemyLoop_Forall (P : EnemySpec -> Prop) :
  (forall existing turretCount c,
     P (fst (fst (enemyStep Math_cos Math_sin rnd lvl st gridSize existing
                    turretCount c)))) ->
  forall n existing turretCount c,
    Forall P (fst (enemyLoop Math_cos Math_sin rnd n lvl st gridSize existing
                     turretCount c)).
Proof.
  intros Hstep. induction n as [ | n IH ]; intros existing turretCount c.
  - constructor.
  - cbn [enemyLoop]. specialize (Hstep existing turretCount c).
    destruct (enemyStep Math_cos Math_sin rnd lvl st gridSize existing
                turretCount c) as [ [ enemy tc' ] c1 ].
    specialize (IH (existing ++ [position enemy]) tc' c1).
    destruct (enemyLoop Math_cos Math_sin rnd n lvl st gridSize
                (existing ++ [position enemy]) tc' c1) as [ rest c2 ].
    constructor; assumption.
Qed.

Lemma enemyLoop_length :
  forall n existing turretCount c,
    length (fst (enemyLoop Math_cos Math_sin rnd n lvl st gridSize existing
                   turretCount c)) = n.
Proof.
  induction n as [ | n IH ]; intros existing turretCount c.
  - reflexivity.
  - cbn [enemyLoop].
    destruct (enemyStep Math_cos Math_sin rnd lvl st gridSize existing
                turretCount c) as [ [ enemy tc' ] c1 ].
    specialize (IH (existing ++ [position enemy]) tc' c1).
    destruct (enemyLoop Math_cos Math_sin rnd n lvl st gridSize
                (existing ++ [position enemy]) tc' c1) as [ rest c2 ].
    simpl in *. congruence.
Qed.

End Composition.

Lemma generateEnemies_length (Math_cos Math_sin : Q -> Q) (rnd : nat -> Q)
    (lvl : Z) (playerPosition : Vec3) (st : GameState) (c : nat) :
  (1 <= lvl)%Z ->
  Z.of_nat (length (fst (generateEnemies Math_cos Math_sin rnd lvl
                           playerPosition st c))) = enemyCountForLevel lvl.
Proof.
  intro H. unfold generateEnemies, enemyCountForLevel.
  destruct (lvl =? 1)%Z eqn:E.
  - destruct (initialLoop _ _ _ _ _ _ _ _) as [ found c1 ]. reflexivity.
  - rewrite enemyLoop_length. unfold enemyIterations.
    replace (lvl <? 0)%Z with false by lia.
    assert (0 <= enemyCount lvl)%Z; [ | lia ].
    destruct (Z_le_gt_dec lvl 10);
      [ pose proof (enemyCount_low lvl ltac:(lia))
      | destruct (Z_lt_ge_dec lvl 40);
        [ pose proof (enemyCount_mid lvl ltac:(lia))
        | pose proof (enemyCount_high lvl ltac:(lia)) ] ]; lia.
Qed.

(** C6. For every level of at least 2, whatever the store, the player
    position and the random draws, [generateEnemies] returns exactly
    [min(1 + floor(sqrt(level) * k), cap)] specs, with [k] = 1.25 up to
    level 10, 2 from 11 to 39 and 2.3 from 40 on, and [cap] = 15 below
    level 40 and 20 from 40 on ([sqrt] and [floor] are those of the real
    numbers); at level 20 it returns exactly 9. *)
Theorem generateEnemies_count (Math_cos Math_sin : Q -> Q) (rnd : nat -> Q)
    (lvl : Z) (playerPosition : Vec3) (st : GameState) (c : nat) :
  (2 <= lvl)%Z ->
  Z.of_nat (length (fst (generateEnemies Math_cos Math_sin rnd lvl
                           playerPosition st c))) = curveCount lvl /\
  length (fst (generateEnemies Math_cos Math_sin rnd 20 playerPosition
                 st c)) = 9%nat.
Proof.
  intro H. split.
  - rewrite generateEnemies_length by lia.
    unfold enemyCountForLevel. replace (lvl =? 1)%Z with false by lia.
    apply enemyCount_curve. lia.
  - unfold generateEnemies. change (20 =? 1)%Z with false. cbv iota.
    rewrite enemyLoop_length. reflexivity.
Qed.

(** C7. The number of enemies per level (1 at level 1, [enemyCount] from
    level 2 on, which is the size of the list [generateEnemies] returns)
    is non-decreasing in the level from level 1 on, at most 15 below
    level 40 and at most 20 from level 40 on; in particular it does not
    decrease from level 10 to 11 nor from level 39 to 40. From level 2 on
    it is the piecewise square-root formula of the specification. *)
Theorem enemyCountForLevel_monotone_bounded (a b : Z) :
  (1 <= a <= b)%Z ->
  (enemyCountForLevel a <= enemyCountForLevel b)%Z /\
  ((b < 40)%Z -> (enemyCountForLevel b <= 15)%Z) /\
  ((40 <= b)%Z -> (enemyCountForLevel b <= 20)%Z) /\
  (enemyCountForLevel 10 <= enemyCountForLevel 11)%Z /\
  (enemyCountForLevel 39 <= enemyCountForLevel 40)%Z /\
  ((2 <= b)%Z -> enemyCountForLevel b = curveCount b) /\
  (forall Math_cos Math_sin rnd playerPosition st c,
     Z.of_nat (length (fst (generateEnemies Math_cos Math_sin rnd b
                              playerPosition st c)))
     = enemyCountForLevel b).
Proof.
  intros [ Ha Hab ].
  assert (B : forall n, (1 <= n)%Z ->
            (1 <= enemyCountForLevel n)%Z /\
            ((n < 40)%Z -> (enemyCountForLevel n <= 15)%Z) /\
            ((40 <= n)%Z -> (enemyCountForLevel n <= 20)%Z)).
  { intros n Hn. unfold enemyCountForLevel.
    destruct (n =? 1)%Z; [ lia | ].
    destruct (Z_le_gt_dec n 10);
      [ pose proof (enemyCount_low n ltac:(lia))
      | destruct (Z_lt_ge_dec n 40);
        [ pose proof (enemyCount_mid n ltac:(lia))
        | pose proof (enemyCount_high n ltac:(lia)) ] ]; lia. }
  split; [ | split; [ | split; [ | split; [ | split; [ | split ] ] ] ] ].
  - unfold enemyCountForLevel at 1.
    destruct (a =? 1)%Z eqn:E; [ apply B; lia | ].
    unfold enemyCountForLevel. replace (b =? 1)%Z with false by lia.
    apply enemyCount_mono. lia.
  - apply B. lia.
  - apply B. lia.
  - vm_compute. discriminate.
  - vm_compute. discriminate.
  - intro Hb. unfold enemyCountForLevel.
    replace (b =? 1)%Z with false by lia. apply enemyCount_curve. lia.
  - intros. apply generateEnemies_length. lia.
Qed.

Lemma generateEnemies_count_witness :
  Z.of_nat (length (fst (generateEnemies cosAtZero sinAtZero zeroDraws 20
                           (0, 0.5, 0)
                           (mkGameState 20 [] [] true (0, 0) 50 false) 0)))
  = curveCount 20 /\
  length (fst (generateEnemies cosAtZero sinAtZero zeroDraws 20 (0, 0.5, 0)
                 (mkGameState 20 [] [] true (0, 0) 50 false) 0)) = 9%nat.
Proof.
  apply generateEnemies_count. lia.
Defined.

Lemma enemyCountForLevel_monotone_bounded_witness :
  (enemyCountForLevel 10 <= enemyCountForLevel 39)%Z /\
  ((39 < 40)%Z -> (enemyCountForLevel 39 <= 15)%Z) /\
  ((40 <= 39)%Z -> (enemyCountForLevel 39 <= 20)%Z) /\
  (enemyCountForLevel 10 <= enemyCountForLevel 11)%Z /\
  (enemyCountForLevel 39 <= enemyCountForLevel 40)%Z /\
  ((2 <= 39)%Z -> enemyCountForLevel 39 = curveCount 39) /\
  (forall Math_cos Math_sin rnd playerPosition st c,
     Z.of_nat (length (fst (generateEnemies Math_cos Math_sin rnd 39
                              playerPosition st c)))
     = enemyCountForLevel 39).
Proof.
  apply (enemyCountForLevel_monotone_bounded 10 39). lia.
Defined.

(** ** Types and stats *)

(** The three outcomes of the type draw. *)
Lemma chooseType_cases (lvl : Z) (random : Q) (turretCount : nat) :
  chooseType lvl random turretCount
    = (bomber, 40 + inject_Z lvl * 3, 4.0, turretCount) /\ (15 <= lvl)%Z
  \/
  chooseType lvl random turretCount
    = (turret, 75 + inject_Z lvl * 9, 1, S turretCount) /\
    (turretCount < maxTurrets)%nat
  \/
  chooseType lvl random turretCount
    = (tank, 50 + inject_Z lvl * 9, 1.3, turretCount).
Proof.
  unfold chooseType.
  destruct (15 <=? lvl)%Z eqn:L; simpl.
  - destruct (Qltb random (bomberProbability lvl)).
    + left. split; [ reflexivity | lia ].
    + destruct (Qltb random _); simpl; [ | right; right; reflexivity ].
      destruct (turretCount <? maxTurrets)%nat eqn:T;
        [ right; left; split; [ reflexivity | apply Nat.ltb_lt; exact T ]
        | right; right; reflexivity ].
  - destruct (Qltb random _); simpl; [ | right; right; reflexivity ].
    destruct (turretCount <? maxTurrets)%nat eqn:T;
      [ right; left; split; [ reflexivity | apply Nat.ltb_lt; exact T ]
      | right; right; reflexivity ].
Qed.

(** The stats an enemy of the general branch carries, by type. *)
Definition statsAsCoded (lvl : Z) (e : EnemySpec) : Prop :=
  match type e with
  | tank => health e == 50 + 9 * inject_Z lvl /\ speed e == 1.3
  | turret => health e == 75 + 9 * inject_Z lvl /\ speed e == 1
  | bomber =>
      (15 <= lvl)%Z /\ health e == 40 + 3 * inject_Z lvl /\ speed e == 4.0
  end.

Lemma enemyStep_stats (Math_cos Math_sin : Q -> Q) (rnd : nat -> Q)
    (lvl : Z) (st : GameState) (gridSize : Q) (existing : list Vec3)
    (turretCount c : nat) :
  statsAsCoded lvl
    (fst (fst (enemyStep Math_cos Math_sin rnd lvl st gridSize existing
                 turretCount c))).
Proof.
  unfold enemyStep.
  destruct (chooseType_cases lvl (rnd c) turretCount)
    as [ [ E L ] | [ [ E T ] | E ] ]; rewrite E;
    destruct (findFinal _ _ _ _ _ _ _ _ _) as [ found c1 ];
    unfold statsAsCoded; simpl; repeat split; try assumption; ring.
Qed.

(** C2 (as the code has it). For every level of at least 2 and every
    random draw, every spec [generateEnemies] returns carries the stats of
    its type: a tank has health [50 + 9 * level] and speed 1.3, a turret
    has health [75 + 9 * level] and speed 1 (the value [speed] is declared
    with; the turret branch does not assign it), a bomber occurs only when
    [level >= 15] and has health [40 + 3 * level] and speed 4. *)
Theorem generateEnemies_stats (Math_cos Math_sin : Q -> Q) (rnd : nat -> Q)
    (lvl : Z) (playerPosition : Vec3) (st : GameState) (c : nat) :
  (2 <= lvl)%Z ->
  Forall (statsAsCoded lvl)
         (fst (generateEnemies Math_cos Math_sin rnd lvl playerPosition
                 st c)).
Proof.
  intro H. unfold generateEnemies. replace (lvl =? 1)%Z with false by lia.
  apply enemyLoop_Forall. intros. apply enemyStep_stats.
Qed.

(** A store at level 2 with no obstacle and no active safe zone. *)
Definition openField : GameState :=
  mkGameState 2 [] [] true (0, 0) 50 false.

Lemma generateEnemies_stats_witness :
  Forall (statsAsCoded 2)
         (fst (generateEnemies cosAtZero sinAtZero zeroDraws 2 (0, 0.5, 0)
                 openField 0)).
Proof.
  apply generateEnemies_stats. lia.
Defined.

(** C2 (as the claim states it) fails: at level 2 on [openField] with all
    draws 0 the first enemy is a turret, and its speed is 1, not 0. *)
Lemma turret_speed_is_not_zero :
  exists e rest,
    fst (generateEnemies cosAtZero sinAtZero zeroDraws 2 (0, 0.5, 0)
           openField 0) = e :: rest /\
    type e = turret /\ speed e = 1 /\ ~ speed e == 0.
Proof.
  eexists. eexists. split; [ vm_compute; reflexivity | ].
  simpl. repeat split. intro H. discriminate H.
Qed.

(** ** The turret cap *)

Definition isTurret (e : EnemySpec) : bool := EnemyType_eqb (type e) turret.

(** The number of turrets of a list of specs. *)
Definition turretsIn (l : list EnemySpec) : nat := length (filter isTurret l).

Lemma enemyStep_turretCount (Math_cos Math_sin : Q -> Q) (rnd : nat -> Q)
    (lvl : Z) (st : GameState) (gridSize : Q) (existing : list Vec3)
    (turretCount c : nat) :
  (turretCount <= maxTurrets)%nat ->
  (snd (fst (enemyStep Math_cos Math_sin rnd lvl st gridSize existing
               turretCount c)) <= maxTurrets)%nat /\
  ((if isTurret (fst (fst (enemyStep Math_cos Math_sin rnd lvl st gridSize
                             existing turretCount c)))
    then 1 else 0) + turretCount
   = snd (fst (enemyStep Math_cos Math_sin rnd lvl st gridSize existing
                 turretCount c)))%nat.
Proof.
  intro H. unfold enemyStep.
  destruct (chooseType_cases lvl (rnd c) turretCount)
    as [ [ E L ] | [ [ E T ] | E ] ]; rewrite E;
    destruct (findFinal _ _ _ _ _ _ _ _ _) as [ found c1 ];
    simpl; unfold isTurret; simpl; lia.
Qed.

Lemma enemyLoop_turrets (Math_cos Math_sin : Q -> Q) (rnd : nat -> Q)
    (lvl : Z) (st : GameState) (gridSize : Q) :
  forall n existing turretCount c,
    (turretCount <= maxTurrets)%nat ->
    (turretsIn (fst (enemyLoop Math_cos Math_sin rnd n lvl st gridSize
                       existing turretCount c)) + turretCount
     <= maxTurrets)%nat.
Proof.
  induction n as [ | n IH ]; intros existing turretCount c H.
  - simpl. exact H.
  - cbn [enemyLoop].
    pose proof (enemyStep_turretCount Math_cos Math_sin rnd lvl st gridSize
                  existing turretCount c H) as [ H1 H2 ].
    destruct (enemyStep Math_cos Math_sin rnd lvl st gridSize existing
                turretCount c) as [ [ enemy tc' ] c1 ].
    simpl in H1, H2.
    specialize (IH (existing ++ [position enemy]) tc' c1 H1).
    destruct (enemyLoop Math_cos Math_sin rnd n lvl st gridSize
                (existing ++ [position enemy]) tc' c1) as [ rest c2 ].
    unfold turretsIn in *. simpl in *.
    destruct (isTurret enemy); simpl; lia.
Qed.

(** C8. In a single generation pass, at any level and for any store and
    random draws, [generateEnemies] returns at most 3 specs of type
    turret. *)
Theorem generateEnemies_turret_cap (Math_cos Math_sin : Q -> Q)
    (rnd : nat -> Q) (lvl : Z) (playerPosition : Vec3) (st : GameState)
    (c : nat) :
  (turretsIn (fst (generateEnemies Math_cos Math_sin rnd lvl playerPosition
                     st c)) <= 3)%nat.
Proof.
  unfold generateEnemies. destruct (lvl =? 1)%Z.
  - destruct (initialLoop _ _ _ _ _ _ _ _) as [ found c1 ].
    unfold turretsIn. simpl. lia.
  - pose proof (enemyLoop_turrets Math_cos Math_sin rnd lvl st
                  (levelGridSize lvl) (enemyIterations lvl) [playerPosition]
                  O c) as H.
    unfold maxTurrets in H. lia.
Qed.

(** ** Where the positions come from *)

Lemma sqrt_lt_false_mono (s c1 c2 : Q) :
  c1 <= c2 -> sqrt_lt s c2 = false -> sqrt_lt s c1 = false.
Proof.
  intros Hc H. unfold sqrt_lt in *.
  apply andb_false_iff in H. apply andb_false_iff.
  destruct (Qlt_le_dec 0 c1) as [ P | N ].
  - right. apply Qltb_ge.
    destruct H as [ H | H ]; apply Qltb_ge in H; [ lra | ].
    apply Qle_trans with (c2 * c2); [ | exact H ].
    apply Qmult_le_compat_nonneg; split; lra.
  - left. apply Qltb_ge. exact N.
Qed.


(** The positions of the safe-zone fallback: offset from the zone centre
    by some angle, or the zone centre itself. *)
Definition safeZoneFallbackPosition (Math_cos Math_sin : Q -> Q)
    (st : GameState) (p : Vec3) : Prop :=
  (exists angle, p = offsetFromCenter Math_cos Math_sin st angle) \/
  p = zoneCenter st.

Section Positions.

Variables Math_cos Math_sin : Q -> Q.
Variable rnd : nat -> Q.
Variable st : GameState.
Variable gridSize : Q.

Lemma safeZoneFallback_position (c : nat) :
  safeZoneFallbackPosition Math_cos Math_sin st
    (fst (safeZoneFallback Math_cos Math_sin rnd st c)).
Proof.
  unfold safeZoneFallback, safeZoneFallbackPosition.
  destruct (extraClear _ (terrainObstacles st)); simpl.
  - left. eexists. reflexivity.
  - right. reflexivity.
Qed.

(** What the position loop leaves in [finalPosition]: a candidate of the
    position search that passed the extra validation and, for a tank or
    a turret under an active safe zone, lies inside the zone; or a
    position of the safe-zone fallback. *)
Lemma findFinal_some (ty : EnemyType) (existing : list Vec3) :
  forall remaining c p c',
    findFinal Math_cos Math_sin rnd remaining st gridSize ty existing c
      = (Some p, c') ->
    (withinMap p /\ vy p = 0.5 /\
     extraClear p (terrainObstacles st) = true /\
     (zoneBound ty && safeZoneActive st = true ->
      insideSafeZone st p = true))
    \/
    (zoneBound ty && safeZoneActive st = true /\
     safeZoneFallbackPosition Math_cos Math_sin st p).
Proof.
  induction remaining as [ | r IH ]; intros c p c' H; cbn [findFinal] in H.
  - discriminate.
  - pose proof (generateRandomPosition_withinMap Math_cos Math_sin rnd
                  (terrainObstacles st) gridSize 5 300 existing c)
      as [ W Y ].
    destruct (generateRandomPosition Math_cos Math_sin rnd gridSize existing
                5 300 (terrainObstacles st) c) as [ cand c1 ].
    simpl in W, Y.
    destruct (extraClear cand (terrainObstacles st)) eqn:X; simpl in H;
      [ | eauto ].
    destruct (zoneBound ty && safeZoneActive st) eqn:Z.
    + destruct (insideSafeZone st cand) eqn:I.
      * injection H as <- <-. left. auto.
      * destruct r as [ | r ]; [ | eauto ].
        pose proof (safeZoneFallback_position c1) as F.
        destruct (safeZoneFallback Math_cos Math_sin rnd st c1)
          as [ q c2 ].
        injection H as <- <-. right. split; [ reflexivity | exact F ].
    + injection H as <- <-. left. repeat split; try assumption; try apply W.
      discriminate.
Qed.

(** The position of the enemy one iteration pushes. *)
Lemma enemyStep_position (lvl : Z) (existing : list Vec3)
    (turretCount c : nat) :
  withinMap (position (fst (fst (enemyStep Math_cos Math_sin rnd lvl st
                                   gridSize existing turretCount c))))
  \/
  (safeZoneActive st = true /\
   zoneBound (type (fst (fst (enemyStep Math_cos Math_sin rnd lvl st
                                gridSize existing turretCount c)))) = true /\
   safeZoneFallbackPosition Math_cos Math_sin st
     (position (fst (fst (enemyStep Math_cos Math_sin rnd lvl st gridSize
                            existing turretCount c))))).
Proof.
  unfold enemyStep.
  destruct (chooseType lvl (rnd c) turretCount) as [ [ [ ty h ] sp ] tc' ].
  destruct (findFinal Math_cos Math_sin rnd turretMaxRegenAttempts st
              gridSize ty existing (S c)) as [ [ p | ] c1 ] eqn:F; simpl.
  - apply findFinal_some in F. destruct F as [ (W & _) | (Z & F) ].
    + left. exact W.
    + right. apply andb_true_iff in Z. tauto.
  - left. apply isWithinMapBoundaries_iff. reflexivity.
Qed.

Lemma initialLoop_some (existing : list Vec3) :
  forall remaining c p c',
    initialLoop Math_cos Math_sin rnd remaining st gridSize existing c
      = (Some p, c') ->
    withinMap p /\ vy p = 0.5 /\ extraClear p (terrainObstacles st) = true.
Proof.
  induction remaining as [ | r IH ]; intros c p c' H;
    cbn [initialLoop] in H.
  - discriminate.
  - pose proof (generateRandomPosition_withinMap Math_cos Math_sin rnd
                  (terrainObstacles st) gridSize 5 300 existing c)
      as [ W Y ].
    destruct (generateRandomPosition Math_cos Math_sin rnd gridSize existing
                5 300 (terrainObstacles st) c) as [ cand c1 ].
    simpl in W, Y.
    destruct (extraClear cand (terrainObstacles st)) eqn:X; [ | eauto ].
    injection H as <- <-. auto.
Qed.

End Positions.

(** C4 (as the code has it). For every level, store and random draws,
    every position [generateEnemies] returns lies within
    [[-mapSize/2 + 2, mapSize/2 - 2]] on both axes ([mapSize] = 100),
    except the positions of the safe-zone fallback (offset from the zone
    centre, or the zone centre itself), which a tank or a turret gets
    under an active safe zone and which pass no boundary check. *)
Theorem generateEnemies_positions (Math_cos Math_sin : Q -> Q)
    (rnd : nat -> Q) (lvl : Z) (playerPosition : Vec3) (st : GameState)
    (c : nat) :
  Forall (fun e =>
            withinMap (position e) \/
            (safeZoneActive st = true /\ zoneBound (type e) = true /\
             safeZoneFallbackPosition Math_cos Math_sin st (position e)))
         (fst (generateEnemies Math_cos Math_sin rnd lvl playerPosition
                 st c)).
Proof.
  unfold generateEnemies. destruct (lvl =? 1)%Z.
  - destruct (initialLoop Math_cos Math_sin rnd 30 st (levelGridSize lvl)
                [playerPosition] c) as [ [ p | ] c1 ] eqn:I; simpl.
    + apply initialLoop_some in I. constructor; [ left; apply I | constructor ].
    + constructor; [ left | constructor ].
      apply isWithinMapBoundaries_iff. reflexivity.
  - apply enemyLoop_Forall. intros. apply enemyStep_position.
Qed.

(** A store at level 2 with no obstacle and an active safe zone of
    radius 1 around (49, 0), a point of the map one unit from its edge. *)
Definition edgeZone : GameState :=
  mkGameState 2 [] [] true (49, 0) 1 true.

(** C4 (as the claim states it) fails: on [edgeZone] with all draws 0 the
    first enemy is a turret; its 15 candidates are (-22, 0.5, -22),
    outside the zone, and the safe-zone fallback puts it at angle 0, at
    (49.8, 0.5, 0): beyond 48 on the x axis, and not the map centre. *)
Lemma safe_zone_fallback_leaves_map :
  exists e rest,
    fst (generateEnemies cosAtZero sinAtZero zeroDraws 2 (0, 0.5, 0)
           edgeZone 0) = e :: rest /\
    type e = turret /\
    vx (position e) == 49.8 /\ vy (position e) == 0.5 /\
    vz (position e) == 0 /\
    ~ withinMap (position e).
Proof.
  eexists. eexists. split; [ vm_compute; reflexivity | ].
  cbv [position type vx vy vz fst snd].
  split; [ reflexivity | ].
  split; [ reflexivity | ]. split; [ reflexivity | ].
  split; [ reflexivity | ].
  unfold withinMap. cbv [vx vz fst snd]. intros [ [ _ H ] _ ].
  revert H. apply Qlt_not_le. reflexivity.
Qed.

(** ** The level-1 branch *)

(** The level-1 branch returns one tank with health 85 and speed 1.3, at
    a position of the map that passed the extra validation or at the
    fallback (20, 0.5, 20). *)
Lemma generateEnemies_level_one (Math_cos Math_sin : Q -> Q)
    (rnd : nat -> Q) (playerPosition : Vec3) (st : GameState) (c : nat) :
  exists p c',
    generateEnemies Math_cos Math_sin rnd 1 playerPosition st c
      = ([mkEnemySpec p 85 tank 1.3], c') /\
    withinMap p /\
    (extraClear p (terrainObstacles st) = true \/ p = (20, 0.5, 20)).
Proof.
  unfold generateEnemies. change (1 =? 1)%Z with true. cbv iota.
  destruct (initialLoop Math_cos Math_sin rnd 30 st (levelGridSize 1)
              [playerPosition] c) as [ [ p | ] c1 ] eqn:I.
  - apply initialLoop_some in I. destruct I as (W & _ & X).
    exists p, c1. auto.
  - exists (20, 0.5, 20), c1. split; [ reflexivity | ].
    split; [ apply isWithinMapBoundaries_iff; reflexivity | ].
    right. reflexivity.
Qed.

(** C9. At level 1, with one obstacle of size 5 at (0, 0, 0) and the
    player at (0, 0.5, 0), whatever the random draws and the rest of the
    store, [generateEnemies] returns exactly one spec: a tank with health
    85 and speed 1.3 whose position is within the map boundaries and at
    distance at least [5 * 2.5 + 7 = 19.5] from the origin ([dist2 0 0 x z]
    is the squared distance of [(x, z)] from the origin); this covers the
    fallback (20, 0.5, 20) used when the 30 attempts are exhausted. *)
Theorem level_one_scenario (Math_cos Math_sin : Q -> Q) (rnd : nat -> Q)
    (lv : Z) (en : list Enemy) (ready : bool) (center : Q * Q) (radius : Q)
    (active : bool) (c : nat) :
  exists p c',
    generateEnemies Math_cos Math_sin rnd 1 (0, 0.5, 0)
      (mkGameState lv en [mkObstacle (0, 0, 0) 5] ready center radius active)
      c = ([mkEnemySpec p 85 tank 1.3], c') /\
    5 * 2.5 + 7 == 19.5 /\
    19.5 * 19.5 <= dist2 0 0 (vx p) (vz p) /\
    (Q2R 19.5 <= sqrt (Q2R (dist2 0 0 (vx p) (vz p))))%R /\
    withinMap p.
Proof.
  destruct (generateEnemies_level_one Math_cos Math_sin rnd (0, 0.5, 0)
              (mkGameState lv en [mkObstacle (0, 0, 0) 5] ready center radius
                 active) c) as (p & c' & E & W & X).
  exists p, c'. split; [ exact E | ]. split; [ reflexivity | ].
  assert (F : sqrt_lt (dist2 0 0 (vx p) (vz p)) 19.5 = false).
  { destruct X as [ X | -> ]; [ | reflexivity ].
    cbn [extraClear terrainObstacles obstacle_position obstacle_size] in X.
    destruct (sqrt_lt (dist2 (vx (0, 0, 0)) (vz (0, 0, 0)) (vx p) (vz p))
                      (5 * 2.5 + 7)) eqn:S; [ discriminate | ].
    exact S. }
  split; [ | split; [ | exact W ] ].
  - unfold sqrt_lt in F. apply andb_false_iff in F.
    destruct F as [ F | F ]; [ vm_compute in F; discriminate | ].
    apply Qltb_ge in F. exact F.
  - apply Rnot_lt_le. intro L.
    apply (sqrt_lt_real _ _ (dist2_nonneg 0 0 (vx p) (vz p))) in L.
    congruence.
Qed.

(** ** The orchestrator *)

(** The store [st] with another value in its [level] field. *)
Definition withLevel (lv : Z) (st : GameState) : GameState :=
  mkGameState lv (enemies st) (terrainObstacles st) (isTerrainReady st)
              (safeZoneCenter st) (safeZoneRadius st) (safeZoneActive st).

Lemma initialLoop_withLevel (Math_cos Math_sin : Q -> Q) (rnd : nat -> Q)
    (lv : Z) (st : GameState) (gridSize : Q) (existing : list Vec3) :
  forall remaining c,
    initialLoop Math_cos Math_sin rnd remaining (withLevel lv st) gridSize
                existing c
    = initialLoop Math_cos Math_sin rnd remaining st gridSize existing c.
Proof.
  induction remaining as [ | r IH ]; intro c; cbn [initialLoop].
  - reflexivity.
  - cbn [withLevel terrainObstacles].
    destruct (generateRandomPosition _ _ _ _ _ _ _ _ _) as [ cand c1 ].
    rewrite IH. reflexivity.
Qed.

(** C10. Whatever the store holds, its [level] field included, the frame
    callback that [generateLevel] schedules (at once when the terrain is
    ready, from its subscriber otherwise) calls [generateEnemies] with
    level 1 and player position (0, 0.5, 0): it spawns exactly one enemy,
    a tank with health 85 and speed 1.3, and changing the [level] field
    of the store changes neither the spec nor the cursor; [generateLevel]
    itself returns empty arrays. *)
Theorem frameCallback_spawns_one_tank (Math_cos Math_sin : Q -> Q)
    (rnd : nat -> Q) (st : GameState) (c : nat) :
  exists p c1,
    generateEnemies Math_cos Math_sin rnd 1 (0, 0.5, 0) st c
      = ([mkEnemySpec p 85 tank 1.3], c1) /\
    frameCallback Math_cos Math_sin rnd st c
      = (mkGameState (level st)
           (enemies st ++ [mkEnemy (rnd c1) (mkEnemySpec p 85 tank 1.3)])
           (terrainObstacles st) (isTerrainReady st) (safeZoneCenter st)
           (safeZoneRadius st) (safeZoneActive st),
         S c1) /\
    (forall lv,
       frameCallback Math_cos Math_sin rnd (withLevel lv st) c
       = (mkGameState lv
            (enemies st ++ [mkEnemy (rnd c1) (mkEnemySpec p 85 tank 1.3)])
            (terrainObstacles st) (isTerrainReady st) (safeZoneCenter st)
            (safeZoneRadius st) (safeZoneActive st),
          S c1)) /\
    generateLevel st
      = (([], []), if isTerrainReady st then FrameRequested else Subscribed) /\
    (forall st', subscriber st' = Some FrameRequested <->
                 isTerrainReady st' = true).
Proof.
  destruct (generateEnemies_level_one Math_cos Math_sin rnd (0, 0.5, 0) st c)
    as (p & c1 & E & _).
  exists p, c1. split; [ exact E | ].
  split; [ unfold frameCallback; rewrite E; reflexivity | ].
  split; [ | split ].
  - intro lv. unfold frameCallback.
    assert (E' : generateEnemies Math_cos Math_sin rnd 1 (0, 0.5, 0)
                   (withLevel lv st) c = ([mkEnemySpec p 85 tank 1.3], c1)).
    { rewrite <- E. unfold generateEnemies. change (1 =? 1)%Z with true.
      cbv iota. rewrite initialLoop_withLevel. reflexivity. }
    rewrite E'. reflexivity.
  - unfold generateLevel. destruct (isTerrainReady st); reflexivity.
  - intro st'. unfold subscriber.
    destruct (isTerrainReady st'); split; intro H;
      (reflexivity || discriminate).
Qed.

(** ** The safe zone *)

(** Where a tank or a turret can end up under an active safe zone: inside
    the zone, at a position of the safe-zone fallback, or at the
    emergency position (0, 0.5, 0) that is used when the position loop
    ends without a position. *)
Theorem safe_zone_placement (Math_cos Math_sin : Q -> Q) (rnd : nat -> Q)
    (lvl : Z) (playerPosition : Vec3) (st : GameState) (c : nat) :
  (2 <= lvl)%Z -> safeZoneActive st = true ->
  Forall (fun e =>
            zoneBound (type e) = true ->
            insideSafeZone st (position e) = true \/
            safeZoneFallbackPosition Math_cos Math_sin st (position e) \/
            position e = (0, 0.5, 0))
         (fst (generateEnemies Math_cos Math_sin rnd lvl playerPosition
                 st c)).
Proof.
  intros H A. unfold generateEnemies. replace (lvl =? 1)%Z with false by lia.
  apply enemyLoop_Forall. intros existing turretCount c0.
  unfold enemyStep.
  destruct (chooseType lvl (rnd c0) turretCount) as [ [ [ ty h ] sp ] tc' ].
  destruct (findFinal Math_cos Math_sin rnd turretMaxRegenAttempts st
              (levelGridSize lvl) ty existing (S c0)) as [ [ p | ] c1 ] eqn:F;
    simpl; intro Z.
  - apply findFinal_some in F. destruct F as [ (_ & _ & _ & I) | (_ & F) ].
    + left. apply I. rewrite Z, A. reflexivity.
    + right. left. exact F.
  - right. right. reflexivity.
Qed.

(** A store at level 2 with one rock of size 18 at the origin and an
    active safe zone of radius 5 around (30, 30). *)
Definition rockStore : GameState :=
  mkGameState 2 [] [mkObstacle (0, 0, 0) 18] true (30, 30) 5 true.

Lemma safe_zone_placement_witness :
  Forall (fun e =>
            zoneBound (type e) = true ->
            insideSafeZone rockStore (position e) = true \/
            safeZoneFallbackPosition cosAtZero sinAtZero rockStore
              (position e) \/
            position e = (0, 0.5, 0))
         (fst (generateEnemies cosAtZero sinAtZero zeroDraws 2 (0, 0.5, 0)
                 rockStore 0)).
Proof.
  apply safe_zone_placement; [ lia | reflexivity ].
Defined.

Lemma square_le_484 (x : Q) : -22 <= x -> x <= 22 -> x * x <= 484.
Proof.
  intros L U.
  assert (H : 0 <= (22 - x) * (22 + x))
    by (apply Qmult_le_0_compat; lra).
  setoid_replace ((22 - x) * (22 + x)) with (484 - x * x) in H by ring.
  lra.
Qed.

(** Every sample of grid size 44 is within the clearance 12 of the rock
    of [rockStore]. *)
Lemma sample_near_rock (r1 r2 : Q) :
  0 <= r1 -> r1 < 1 -> 0 <= r2 -> r2 < 1 ->
  isPositionClear ((r1 - 0.5) * 44) ((r2 - 0.5) * 44)
                  (terrainObstacles rockStore) 12 = false.
Proof.
  intros A1 B1 A2 B2. cbn [isPositionClear terrainObstacles rockStore].
  assert (T : tooClose ((r1 - 0.5) * 44) ((r2 - 0.5) * 44) 12
                       (mkObstacle (0, 0, 0) 18) = true).
  { unfold tooClose, sqrt_lt. apply andb_true_iff. split.
    - reflexivity.
    - apply Qltb_lt.
      cbn [obstacle_position obstacle_size vx vz fst snd]. unfold dist2.
      pose proof (square_le_484 ((r1 - 0.5) * 44) ltac:(lra) ltac:(lra)).
      pose proof (square_le_484 ((r2 - 0.5) * 44) ltac:(lra) ltac:(lra)).
      setoid_replace ((0 - (r1 - 0.5) * 44) * (0 - (r1 - 0.5) * 44))
        with (((r1 - 0.5) * 44) * ((r1 - 0.5) * 44)) by ring.
      setoid_replace ((0 - (r2 - 0.5) * 44) * (0 - (r2 - 0.5) * 44))
        with (((r2 - 0.5) * 44) * ((r2 - 0.5) * 44)) by ring.
      apply Qle_lt_trans with (484 + 484); [ lra | reflexivity ]. }
  rewrite T. reflexivity.
Qed.

Section RockRun.

Variables Math_cos Math_sin : Q -> Q.
Variable rnd : nat -> Q.
Hypothesis rnd_range : forall k, 0 <= rnd k /\ rnd k < 1.

Lemma sampleTier_rock (existing : list Vec3) (minDist : Q) :
  forall n c,
    sampleTier rnd n 44 existing minDist (terrainObstacles rockStore) c
    = (None, (c + 2 * n)%nat).
Proof.
  induction n as [ | n IH ]; intro c; cbn [sampleTier].
  - f_equal. lia.
  - rewrite sample_near_rock by apply rnd_range.
    replace (c + 2 * S n)%nat with (S (S c) + 2 * n)%nat by lia.
    destruct (isWithinMapBoundaries _ _ 100); simpl; apply IH.
Qed.

(** On [rockStore] the position search always ends in the grid tier, on
    the first lattice point (-35.2, 0.5, -35.2). *)
Lemma generateRandomPosition_rock (existing : list Vec3) (c : nat) :
  generateRandomPosition Math_cos Math_sin rnd 44 existing 5 300
    (terrainObstacles rockStore) c
  = ((gridCoord 44 (-10), 0.5, gridCoord 44 (-10)), (c + 600)%nat).
Proof.
  unfold generateRandomPosition.
  change (sampleBudget 300) with 300%nat.
  rewrite sampleTier_rock. f_equal.
Qed.

(** ... which fails the extra validation, so that the position loop ends
    without a position. *)
Lemma findFinal_rock (ty : EnemyType) (existing : list Vec3) :
  forall remaining c,
    findFinal Math_cos Math_sin rnd remaining rockStore 44 ty existing c
    = (None, (c + 600 * remaining)%nat).
Proof.
  induction remaining as [ | r IH ]; intro c; cbn [findFinal].
  - f_equal. lia.
  - rewrite generateRandomPosition_rock.
    replace (extraClear _ (terrainObstacles rockStore)) with false
      by (vm_compute; reflexivity).
    cbn [negb]. rewrite IH. f_equal. lia.
Qed.

Lemma enemyStep_rock (existing : list Vec3) (turretCount c : nat) :
  position (fst (fst (enemyStep Math_cos Math_sin rnd 2 rockStore 44
                        existing turretCount c))) = (0, 0.5, 0) /\
  zoneBound (type (fst (fst (enemyStep Math_cos Math_sin rnd 2 rockStore 44
                               existing turretCount c)))) = true.
Proof.
  unfold enemyStep.
  destruct (chooseType_cases 2 (rnd c) turretCount)
    as [ [ E L ] | [ [ E T ] | E ] ]; [ lia | | ];
    rewrite E, findFinal_rock; split; reflexivity.
Qed.

End RockRun.

(** C1 (the code departs from it). On [rockStore] (level 2, safe zone
    active, centre (30, 30), radius 5, one rock of size 18 at the origin),
    for every stream of draws in [[0, 1)]: every candidate of the position
    search is the lattice point (-35.2, 0.5, -35.2), which fails the extra
    validation; the fifteenth failure ends the position loop through its
    [continue], past the safe-zone fallback, and both enemies, each a tank
    or a turret, are placed at the emergency position (0, 0.5, 0). That
    position is outside the safe zone, is not the zone centre, and is not
    a position offset from the centre (whose [x] is at least 26 for a
    cosine of at least -1). *)
Theorem emergency_position_outside_safe_zone (Math_cos Math_sin : Q -> Q)
    (rnd : nat -> Q) (c : nat) :
  (forall k, 0 <= rnd k /\ rnd k < 1) ->
  length (fst (generateEnemies Math_cos Math_sin rnd 2 (0, 0.5, 0)
                 rockStore c)) = 2%nat /\
  Forall (fun e => zoneBound (type e) = true /\ position e = (0, 0.5, 0))
         (fst (generateEnemies Math_cos Math_sin rnd 2 (0, 0.5, 0)
                 rockStore c)) /\
  safeZoneActive rockStore = true /\
  insideSafeZone rockStore (0, 0.5, 0) = false /\
  ~ vx (zoneCenter rockStore) == 0 /\
  (forall angle,
     -1 <= Math_cos angle ->
     26 <= vx (offsetFromCenter Math_cos Math_sin rockStore angle)).
Proof.
  intro R. unfold generateEnemies.
  change (2 =? 1)%Z with false. cbv iota.
  change (enemyIterations 2) with 2%nat.
  change (levelGridSize 2) with 44.
  split; [ apply enemyLoop_length | ].
  split.
  { apply enemyLoop_Forall. intros existing turretCount c0.
    destruct (enemyStep_rock Math_cos Math_sin rnd R existing turretCount c0)
      as [ P Z ].
    split; assumption. }
  split; [ reflexivity | ]. split; [ reflexivity | ].
  split; [ intro H; discriminate H | ].
  intros angle H. unfold offsetFromCenter.
  cbn [vx fst snd safeZoneCenter safeZoneRadius rockStore].
  change (Qmin (5 * 0.8) 5) with (5 * 0.8). lra.
Qed.

Lemma emergency_position_outside_safe_zone_witness :
  length (fst (generateEnemies cosAtZero sinAtZero zeroDraws 2 (0, 0.5, 0)
                 rockStore 0)) = 2%nat /\
  Forall (fun e => zoneBound (type e) = true /\ position e = (0, 0.5, 0))
         (fst (generateEnemies cosAtZero sinAtZero zeroDraws 2 (0, 0.5, 0)
                 rockStore 0)) /\
  safeZoneActive rockStore = true /\
  insideSafeZone rockStore (0, 0.5, 0) = false /\
  ~ vx (zoneCenter rockStore) == 0 /\
  (forall angle,
     -1 <= cosAtZero angle ->
     26 <= vx (offsetFromCenter cosAtZero sinAtZero rockStore angle)).
Proof.
  apply (emergency_position_outside_safe_zone cosAtZero sinAtZero zeroDraws 0).
  intro k. unfold zeroDraws. split; [ apply Qle_refl | reflexivity ].
Defined.

(** * Further properties of the generator *)

(** ** The validators *)

Lemma isPositionClear_weaken (x z c1 c2 : Q) (obstacles : list Obstacle) :
  c1 <= c2 ->
  isPositionClear x z obstacles c2 = true ->
  isPositionClear x z obstacles c1 = true.
Proof.
  intro Hc. induction obstacles as [ | o rest IH ]; cbn [isPositionClear];
    intro H.
  - reflexivity.
  - unfold tooClose in *.
    destruct (sqrt_lt _ (obstacle_size o * 2.5 + c2)) eqn:E;
      [ discriminate | ].
    assert (L : obstacle_size o * 2.5 + c1 <= obstacle_size o * 2.5 + c2)
      by lra.
    rewrite (sqrt_lt_false_mono _ _ _ L E). apply IH. exact H.
Qed.

(** The extra validation of [generateEnemies] is [isPositionClear] with
    clearance 7. *)
Lemma extraClear_isPositionClear (p : Vec3) (obstacles : list Obstacle) :
  extraClear p obstacles = isPositionClear (vx p) (vz p) obstacles 7.
Proof.
  induction obstacles as [ | o rest IH ]; cbn [extraClear isPositionClear].
  - reflexivity.
  - unfold tooClose. rewrite IH. reflexivity.
Qed.

(** ** What the position search guarantees *)

Lemma staticTier_clear (obstacles : list Obstacle) :
  forall candidates,
    isPositionClear (vx (staticTier obstacles candidates))
                    (vz (staticTier obstacles candidates)) obstacles 3 = true
    \/
    (staticTier obstacles candidates = (0, 0.5, 0) /\
     Forall (fun q => isPositionClear (vx q) (vz q) obstacles 3 = false)
            candidates).
Proof.
  induction candidates as [ | pos rest IH ]; cbn [staticTier].
  - right. split; [ reflexivity | constructor ].
  - destruct (isPositionClear (vx pos) (vz pos) obstacles 3) eqn:E.
    + left. exact E.
    + destruct IH as [ IH | [ IH1 IH2 ] ]; [ left; exact IH | right ].
      split; [ exact IH1 | constructor; assumption ].
Qed.

(** Whatever the tier, the position [generateRandomPosition] returns
    keeps clearance 3 from every obstacle (the weakest clearance of the
    tiers), with one exception: the map centre (0, 0.5, 0), returned when
    every one of the five static positions, the centre included, is
    obstructed. *)
Theorem generateRandomPosition_clearance (Math_cos Math_sin : Q -> Q)
    (rnd : nat -> Q) (gridSize : Q) (existingPositions : list Vec3)
    (minDistanceFromExisting attempts : Q) (obstacles : list Obstacle)
    (c : nat) :
  isPositionClear
    (vx (fst (generateRandomPosition Math_cos Math_sin rnd gridSize
                existingPositions minDistanceFromExisting attempts
                obstacles c)))
    (vz (fst (generateRandomPosition Math_cos Math_sin rnd gridSize
                existingPositions minDistanceFromExisting attempts
                obstacles c)))
    obstacles 3 = true
  \/
  (fst (generateRandomPosition Math_cos Math_sin rnd gridSize
          existingPositions minDistanceFromExisting attempts obstacles c)
   = (0, 0.5, 0) /\
   Forall (fun q => isPositionClear (vx q) (vz q) obstacles 3 = false)
          safePositions).
Proof.
  unfold generateRandomPosition.
  destruct (sampleTier rnd (sampleBudget attempts) gridSize
              existingPositions minDistanceFromExisting obstacles c)
    as [ [ p | ] c' ] eqn:S; cbn [fst].
  - apply sampleTier_some in S. destruct S as ((_ & C & _) & _).
    left. apply (isPositionClear_weaken _ _ 3 12); [ lra | exact C ].
  - unfold fallbackTiers.
    destruct (gridTier gridSize obstacles gridSteps) as [ p | ] eqn:G.
    + apply gridTier_some in G. destruct G as (_ & C & _).
      left. apply (isPositionClear_weaken _ _ 3 4); [ lra | exact C ].
    + destruct (radialTier Math_cos Math_sin obstacles (ringRadii gridSize))
        as [ p | ] eqn:R.
      * apply radialTier_some in R. destruct R as (_ & C & _).
        left. exact C.
      * apply staticTier_clear.
Qed.




Lemma half_times_grid (a g : Q) :
  - (1 # 2) <= a -> a <= 1 # 2 -> 0 <= g -> g <= 96 ->
  -48 <= a * g /\ a * g <= 48.
Proof.
  intros A1 A2 G1 G2.
  pose proof (Qmult_le_compat_r _ _ g A2 G1) as U.
  pose proof (Qmult_le_compat_r _ _ g A1 G1) as L.
  split; lra.
Qed.

(** A sample of the sampling tier drawn from [[0, 1)] lies within the map
    for every grid size from 0 to 96, which covers the grid sizes of all
    levels: the boundary check of that tier never rejects it. *)
Lemma sample_withinMap (r1 r2 gridSize : Q) :
  0 <= gridSize -> gridSize <= 96 ->
  0 <= r1 -> r1 < 1 -> 0 <= r2 -> r2 < 1 ->
  isWithinMapBoundaries ((r1 - 0.5) * gridSize) ((r2 - 0.5) * gridSize) 100
  = true.
Proof.
  intros G1 G2 A1 B1 A2 B2.
  destruct (half_times_grid (r1 - 0.5) gridSize) as [ L1 U1 ]; try lra.
  destruct (half_times_grid (r2 - 0.5) gridSize) as [ L2 U2 ]; try lra.
  apply (isWithinMapBoundaries_iff
           ((r1 - 0.5) * gridSize, 0.5, (r2 - 0.5) * gridSize)).
  unfold withinMap, vx, vz. cbn [fst snd].
  assert (Hlo : - (100 / 2) + 2 == -48) by reflexivity.
  assert (Hhi : 100 / 2 - 2 == 48) by reflexivity.
  rewrite Hlo, Hhi. repeat split; assumption.
Qed.

Lemma sampleBudget_positive (attempts : Q) :
  0 < attempts -> exists n, sampleBudget attempts = S n.
Proof.
  intro H. unfold sampleBudget.
  pose proof (Qle_ceiling attempts) as C.
  assert (P : (0 < Qceiling attempts)%Z).
  { rewrite Zlt_Qlt. change (inject_Z 0) with 0. lra. }
  exists (Z.to_nat (Qceiling attempts - 1)). lia.
Qed.

Lemma sampleBudget_nonpositive (attempts : Q) :
  attempts <= 0 -> sampleBudget attempts = O.
Proof.
  intro H. unfold sampleBudget.
  pose proof (Qceiling_lt attempts) as C.
  assert (P : (Qceiling attempts - 1 < 0)%Z).
  { rewrite Zlt_Qlt. change (inject_Z 0) with 0. lra. }
  lia.
Qed.

(** Empty input: with no obstacle and no existing position, a grid size
    from 0 to 96, a positive attempt budget and draws in [[0, 1)], the
    position search returns its very first sample, after exactly two
    draws. *)
Theorem generateRandomPosition_open_field (Math_cos Math_sin : Q -> Q)
    (rnd : nat -> Q) (gridSize minDistanceFromExisting attempts : Q)
    (c : nat) :
  0 <= gridSize -> gridSize <= 96 -> 0 < attempts ->
  (0 <= rnd c /\ rnd c < 1) -> (0 <= rnd (S c) /\ rnd (S c) < 1) ->
  generateRandomPosition Math_cos Math_sin rnd gridSize []
    minDistanceFromExisting attempts [] c
  = (((rnd c - 0.5) * gridSize, 0.5, (rnd (S c) - 0.5) * gridSize),
     S (S c)).
Proof.
  intros G1 G2 A [ R1 R2 ] [ R3 R4 ].
  destruct (sampleBudget_positive attempts A) as [ n E ].
  unfold generateRandomPosition. rewrite E. cbn [sampleTier].
  rewrite sample_withinMap by assumption.
  reflexivity.
Qed.

Lemma generateRandomPosition_open_field_witness :
  generateRandomPosition cosAtZero sinAtZero zeroDraws 70 [] 5 300 [] 0
  = (((zeroDraws 0 - 0.5) * 70, 0.5, (zeroDraws 1 - 0.5) * 70), 2%nat).
Proof.
  apply generateRandomPosition_open_field;
    try (split; [ apply Qle_refl | reflexivity ]);
    try (intro H; discriminate H); reflexivity.
Defined.

(** An attempt budget of 0 or less skips the sampling tier: no random
    number is drawn, and the position depends neither on the draws nor on
    the existing positions nor on the separation. *)
Theorem generateRandomPosition_no_attempts (Math_cos Math_sin : Q -> Q)
    (rnd rnd' : nat -> Q) (gridSize : Q)
    (existingPositions existingPositions' : list Vec3)
    (minDistanceFromExisting minDistanceFromExisting' attempts : Q)
    (obstacles : list Obstacle) (c c' : nat) :
  attempts <= 0 ->
  snd (generateRandomPosition Math_cos Math_sin rnd gridSize
         existingPositions minDistanceFromExisting attempts obstacles c) = c
  /\
  fst (generateRandomPosition Math_cos Math_sin rnd gridSize
         existingPositions minDistanceFromExisting attempts obstacles c)
  = fst (generateRandomPosition Math_cos Math_sin rnd' gridSize
           existingPositions' minDistanceFromExisting' attempts obstacles c').
Proof.
  intro H. unfold generateRandomPosition.
  rewrite (sampleBudget_nonpositive attempts H). cbn [sampleTier].
  split; reflexivity.
Qed.

Lemma generateRandomPosition_no_attempts_witness :
  snd (generateRandomPosition cosAtZero sinAtZero zeroDraws 42 [(0, 0.5, 0)]
         5 0 cornerRocks 7) = 7%nat /\
  fst (generateRandomPosition cosAtZero sinAtZero zeroDraws 42 [(0, 0.5, 0)]
         5 0 cornerRocks 7)
  = fst (generateRandomPosition cosAtZero sinAtZero (fun _ => 0.5) 42 []
           9 0 cornerRocks 0).
Proof.
  apply generateRandomPosition_no_attempts. apply Qle_refl.
Defined.

(** ** What the enemy generator guarantees *)

Section Placement.

Variables Math_cos Math_sin : Q -> Q.
Variable rnd : nat -> Q.
Variable st : GameState.
Variable gridSize : Q.

Lemma safeZoneFallback_clear (c : nat) :
  extraClear (fst (safeZoneFallback Math_cos Math_sin rnd st c))
             (terrainObstacles st) = true \/
  fst (safeZoneFallback Math_cos Math_sin rnd st c) = zoneCenter st.
Proof.
  unfold safeZoneFallback. cbv zeta.
  destruct (extraClear (offsetFromCenter Math_cos Math_sin st
                          (rnd c * Math_PI * 2)) (terrainObstacles st))
    eqn:E; cbn [fst].
  - left. exact E.
  - right. reflexivity.
Qed.

Lemma findFinal_clear (ty : EnemyType) (existing : list Vec3) :
  forall remaining c p c',
    findFinal Math_cos Math_sin rnd remaining st gridSize ty existing c
      = (Some p, c') ->
    extraClear p (terrainObstacles st) = true \/
    (zoneBound ty && safeZoneActive st = true /\ p = zoneCenter st).
Proof.
  induction remaining as [ | r IH ]; intros c p c' H; cbn [findFinal] in H.
  - discriminate.
  - destruct (generateRandomPosition Math_cos Math_sin rnd gridSize existing
                5 300 (terrainObstacles st) c) as [ cand c1 ].
    destruct (extraClear cand (terrainObstacles st)) eqn:X; simpl in H;
      [ | eauto ].
    destruct (zoneBound ty && safeZoneActive st) eqn:Z.
    + destruct (insideSafeZone st cand).
      * injection H as <- <-. left. exact X.
      * destruct r as [ | r ]; [ | eauto ].
        pose proof (safeZoneFallback_clear c1) as F.
        destruct (safeZoneFallback Math_cos Math_sin rnd st c1)
          as [ q c2 ].
        injection H as <- <-. cbn [fst] in F.
        destruct F as [ F | F ]; [ left; exact F | right; auto ].
    + injection H as <- <-. left. exact X.
Qed.

Lemma findFinal_height (ty : EnemyType) (existing : list Vec3) :
  forall remaining c p c',
    findFinal Math_cos Math_sin rnd remaining st gridSize ty existing c
      = (Some p, c') ->
    vy p = 0.5.
Proof.
  intros remaining c p c' H. apply findFinal_some in H.
  destruct H as [ (_ & Y & _) | (_ & [ [ angle -> ] | -> ]) ];
    [ exact Y | reflexivity | reflexivity ].
Qed.

End Placement.

(** Every position [generateEnemies] returns passed the extra validation
    (clearance [obstacle.size * 2.5 + 7] from every obstacle), with three
    exceptions that are placed unchecked: the zone centre of the
    safe-zone fallback, the emergency position (0, 0.5, 0) of the general
    branch, and the fallback (20, 0.5, 20) of the level-1 branch. *)
Theorem generateEnemies_clearance (Math_cos Math_sin : Q -> Q)
    (rnd : nat -> Q) (lvl : Z) (playerPosition : Vec3) (st : GameState)
    (c : nat) :
  Forall (fun e =>
            extraClear (position e) (terrainObstacles st) = true \/
            (safeZoneActive st = true /\ zoneBound (type e) = true /\
             position e = zoneCenter st) \/
            (lvl <> 1%Z /\ position e = (0, 0.5, 0)) \/
            (lvl = 1%Z /\ position e = (20, 0.5, 20)))
         (fst (generateEnemies Math_cos Math_sin rnd lvl playerPosition
                 st c)).
Proof.
  unfold generateEnemies. destruct (lvl =? 1)%Z eqn:L.
  - destruct (initialLoop Math_cos Math_sin rnd 30 st (levelGridSize lvl)
                [playerPosition] c) as [ [ p | ] c1 ] eqn:I; cbn [fst].
    + apply initialLoop_some in I. destruct I as (_ & _ & X).
      constructor; [ left; exact X | constructor ].
    + constructor; [ | constructor ].
      right. right. right. split; [ lia | reflexivity ].
  - apply enemyLoop_Forall. intros existing turretCount c0.
    unfold enemyStep.
    destruct (chooseType lvl (rnd c0) turretCount)
      as [ [ [ ty h ] sp ] tc' ].
    destruct (findFinal Math_cos Math_sin rnd turretMaxRegenAttempts st
                (levelGridSize lvl) ty existing (S c0))
      as [ [ p | ] c1 ] eqn:F; cbn [fst position type].
    + apply findFinal_clear in F. destruct F as [ F | (Z & F) ].
      * left. exact F.
      * right. left. apply andb_true_iff in Z. tauto.
    + right. right. left. split; [ lia | reflexivity ].
Qed.

(** Every position [generateEnemies] returns is at height 0.5, whichever
    path placed it. *)
Theorem generateEnemies_height (Math_cos Math_sin : Q -> Q)
    (rnd : nat -> Q) (lvl : Z) (playerPosition : Vec3) (st : GameState)
    (c : nat) :
  Forall (fun e => vy (position e) = 0.5)
         (fst (generateEnemies Math_cos Math_sin rnd lvl playerPosition
                 st c)).
Proof.
  unfold generateEnemies. destruct (lvl =? 1)%Z.
  - destruct (initialLoop Math_cos Math_sin rnd 30 st (levelGridSize lvl)
                [playerPosition] c) as [ [ p | ] c1 ] eqn:I; cbn [fst].
    + apply initialLoop_some in I. destruct I as (_ & Y & _).
      constructor; [ exact Y | constructor ].
    + constructor; [ reflexivity | constructor ].
  - apply enemyLoop_Forall. intros existing turretCount c0.
    unfold enemyStep.
    destruct (chooseType lvl (rnd c0) turretCount)
      as [ [ [ ty h ] sp ] tc' ].
    destruct (findFinal Math_cos Math_sin rnd turretMaxRegenAttempts st
                (levelGridSize lvl) ty existing (S c0))
      as [ [ p | ] c1 ] eqn:F; cbn [fst position].
    + eapply findFinal_height. exact F.
    + reflexivity.
Qed.

(** The type draw never exceeds its nominal probabilities: the turret
    and the bomber probability are each at most 0.3. *)
Lemma probabilities_bounded (lvl : Z) :
  turretProbability lvl <= 0.3 /\ bomberProbability lvl <= 0.3.
Proof.
  unfold turretProbability, bomberProbability. split.
  - apply Q.le_min_r.
  - destruct (15 <=? lvl)%Z; [ apply Q.le_min_r | discriminate ].
Qed.

Lemma chooseType_high_draw (lvl : Z) (random : Q) (turretCount : nat) :
  0.6 <= random ->
  chooseType lvl random turretCount
  = (tank, 50 + inject_Z lvl * 9, 1.3, turretCount).
Proof.
  intro H. destruct (probabilities_bounded lvl) as [ T B ].
  unfold chooseType.
  assert (E1 : Qltb random (bomberProbability lvl) = false)
    by (apply Qltb_ge; lra).
  assert (E2 : Qltb random (turretProbability lvl + bomberProbability lvl)
               = false)
    by (apply Qltb_ge; lra).
  rewrite E1, E2, andb_false_r. reflexivity.
Qed.

(** Tanks are the residual type: when every draw of [Math.random] is at
    least 0.6, every enemy [generateEnemies] returns is a tank, at every
    level. *)
Theorem generateEnemies_high_draws_tanks (Math_cos Math_sin : Q -> Q)
    (rnd : nat -> Q) (lvl : Z) (playerPosition : Vec3) (st : GameState)
    (c : nat) :
  (forall k, 0.6 <= rnd k) ->
  Forall (fun e => type e = tank)
         (fst (generateEnemies Math_cos Math_sin rnd lvl playerPosition
                 st c)).
Proof.
  intro H. unfold generateEnemies. destruct (lvl =? 1)%Z.
  - destruct (initialLoop Math_cos Math_sin rnd 30 st (levelGridSize lvl)
                [playerPosition] c) as [ found c1 ]; cbn [fst].
    constructor; [ reflexivity | constructor ].
  - apply enemyLoop_Forall. intros existing turretCount c0.
    unfold enemyStep. rewrite (chooseType_high_draw _ _ _ (H c0)).
    destruct (findFinal _ _ _ _ _ _ _ _ _) as [ found c1 ]. reflexivity.
Qed.

Lemma generateEnemies_high_draws_tanks_witness :
  Forall (fun e => type e = tank)
         (fst (generateEnemies cosAtZero sinAtZero (fun _ => 0.75) 20
                 (0, 0.5, 0) (mkGameState 20 [] [] true (0, 0) 50 false) 0)).
Proof.
  apply generateEnemies_high_draws_tanks.
  intro k. intro H. discriminate H.
Defined.

(** ** Spawning *)

(** [spawnAll] pushes one enemy per spec, in order, behind the enemies
    the store already holds; the [k]-th gets its id from the [k]-th next
    draw; nothing else of the store changes. *)
Theorem spawnAll_appends (rnd : nat -> Q) (specs : list EnemySpec) :
  forall (st : GameState) (c : nat),
    map enemy_spec (enemies (fst (spawnAll rnd specs st c)))
    = map enemy_spec (enemies st) ++ specs /\
    map id (enemies (fst (spawnAll rnd specs st c)))
    = map id (enemies st) ++ map rnd (seq c (length specs)) /\
    snd (spawnAll rnd specs st c) = (c + length specs)%nat /\
    level (fst (spawnAll rnd specs st c)) = level st /\
    terrainObstacles (fst (spawnAll rnd specs st c)) = terrainObstacles st /\
    isTerrainReady (fst (spawnAll rnd specs st c)) = isTerrainReady st /\
    safeZoneCenter (fst (spawnAll rnd specs st c)) = safeZoneCenter st /\
    safeZoneRadius (fst (spawnAll rnd specs st c)) = safeZoneRadius st /\
    safeZoneActive (fst (spawnAll rnd specs st c)) = safeZoneActive st.
Proof.
  induction specs as [ | spec rest IH ]; intros st c.
  - cbn [spawnAll fst snd length seq map]. rewrite !app_nil_r.
    repeat split; lia.
  - change (spawnAll rnd (spec :: rest) st c)
      with (spawnAll rnd rest
              (mkGameState (level st)
                 (enemies st ++ [mkEnemy (rnd c) spec])
                 (terrainObstacles st) (isTerrainReady st)
                 (safeZoneCenter st) (safeZoneRadius st)
                 (safeZoneActive st)) (S c)).
    specialize (IH (mkGameState (level st)
                      (enemies st ++ [mkEnemy (rnd c) spec])
                      (terrainObstacles st) (isTerrainReady st)
                      (safeZoneCenter st) (safeZoneRadius st)
                      (safeZoneActive st)) (S c)).
    cbn [level enemies terrainObstacles isTerrainReady safeZoneCenter
         safeZoneRadius safeZoneActive] in IH.
    destruct IH as (I1 & I2 & I3 & I4 & I5 & I6 & I7 & I8 & I9).
    rewrite I1, I2, I3, I4, I5, I6, I7, I8, I9.
    rewrite !map_app. cbn [map enemy_spec id length seq].
    rewrite <- !app_assoc. cbn [app].
    repeat split; lia.
Qed.

Lemma frameCallback_spawns_one_tank_aux (Math_cos Math_sin : Q -> Q)
    (rnd : nat -> Q) (st : GameState) (c : nat) :
  exists p c1,
    frameCallback Math_cos Math_sin rnd st c
    = (mkGameState (level st)
         (enemies st ++ [mkEnemy (rnd c1) (mkEnemySpec p 85 tank 1.3)])
         (terrainObstacles st) (isTerrainReady st) (safeZoneCenter st)
         (safeZoneRadius st) (safeZoneActive st),
       S c1).
Proof.
  destruct (generateEnemies_level_one Math_cos Math_sin rnd (0, 0.5, 0) st c)
    as (p & c1 & E & _).
  exists p, c1. unfold frameCallback. rewrite E. reflexivity.
Qed.

(** [n] runs of the frame callback, one after the other. *)
Fixpoint framePasses (Math_cos Math_sin : Q -> Q) (rnd : nat -> Q) (n : nat)
    (st : GameState) (c : nat) : GameState * nat :=
  match n with
  | O => (st, c)
  | S n' =>
      let (st', c') := frameCallback Math_cos Math_sin rnd st c in
      framePasses Math_cos Math_sin rnd n' st' c'
  end.

Definition levelOneTank (spec : EnemySpec) : Prop :=
  type spec = tank /\ health spec = 85 /\ speed spec = 1.3.

(** Nothing keeps passes apart: each run of the frame callback adds one
    more level-1 tank behind the enemies already in the store, so [n]
    runs add exactly [n], and none of them touches the obstacles. *)
Theorem framePasses_add_tanks (Math_cos Math_sin : Q -> Q) (rnd : nat -> Q) :
  forall (n : nat) (st : GameState) (c : nat),
    exists added,
      map enemy_spec
          (enemies (fst (framePasses Math_cos Math_sin rnd n st c)))
      = map enemy_spec (enemies st) ++ added /\
      length added = n /\
      Forall levelOneTank added /\
      terrainObstacles (fst (framePasses Math_cos Math_sin rnd n st c))
      = terrainObstacles st.
Proof.
  induction n as [ | n IH ]; intros st c; cbn [framePasses].
  - exists []. rewrite app_nil_r. repeat split. constructor.
  - destruct (frameCallback_spawns_one_tank_aux Math_cos Math_sin rnd st c)
      as (p & c1 & E).
    rewrite E.
    destruct (IH (mkGameState (level st)
                    (enemies st
                     ++ [mkEnemy (rnd c1) (mkEnemySpec p 85 tank 1.3)])
                    (terrainObstacles st) (isTerrainReady st)
                    (safeZoneCenter st) (safeZoneRadius st)
                    (safeZoneActive st)) (S c1))
      as (added & A1 & A2 & A3 & A4).
    exists (mkEnemySpec p 85 tank 1.3 :: added).
    rewrite A1, A4. cbn [enemies terrainObstacles].
    rewrite map_app, <- app_assoc. cbn [map enemy_spec app length].
    repeat split; [ lia | ].
    constructor; [ repeat split | exact A3 ].
Qed.

(** * The game-state store ([gameState.ts]) *)

From Stdlib Require String.

Module Store.

Import String.StringSyntax.
Delimit Scope string_scope with string.

(** ["tank" | "turret"] *)
Inductive EnemyKind : Type := tank | turret.

(** ["health" | "speed" | "damage"] *)
Inductive PowerUpKind : Type := healthPowerUp | speedPowerUp | damagePowerUp.

Record Enemy : Type := mkEnemy {
  id : String.string;
  position : Vec3;
  health : Q;
  type : EnemyKind
}.

(** [Omit<Enemy, "id">] *)
Record NewEnemy : Type := mkNewEnemy {
  new_position : Vec3;
  new_health : Q;
  new_type : EnemyKind
}.

Record PowerUp : Type := mkPowerUp {
  powerUp_id : String.string;
  powerUp_position : Vec3;
  powerUp_type : PowerUpKind
}.

(** [Omit<PowerUp, "id">] *)
Record NewPowerUp : Type := mkNewPowerUp {
  newPowerUp_position : Vec3;
  newPowerUp_type : PowerUpKind
}.

(** The data fields of the store. *)
Record GameState : Type := mkGameState {
  playerHealth : Q;
  playerMaxHealth : Q;
  playerSpeed : Q;
  playerDamage : Q;
  score : Q;
  level : Z;
  playerTankPosition : Vec3;
  enemies : list Enemy;
  powerUps : list PowerUp;
  isGameOver : bool;
  isPaused : bool
}.

(** The state [create] starts from, which is also what [restartGame]
    sets. *)
Definition initialState : GameState :=
  mkGameState 100 100 3 25 0 1 (0, 0.5, 0) [] [] false false.

Definition takeDamage (amount : Q) (state : GameState) : GameState :=
  let newHealth := Qmax 0 (playerHealth state - amount) in
  mkGameState newHealth (playerMaxHealth state) (playerSpeed state)
    (playerDamage state) (score state) (level state)
    (playerTankPosition state) (enemies state) (powerUps state)
    (Qle_bool newHealth 0) (isPaused state).

Definition healPlayer (amount : Q) (state : GameState) : GameState :=
  mkGameState
    (Qmin (playerMaxHealth state) (playerHealth state + amount))
    (playerMaxHealth state) (playerSpeed state) (playerDamage state)
    (score state) (level state) (playerTankPosition state) (enemies state)
    (powerUps state) (isGameOver state) (isPaused state).

Definition increaseScore (amount : Q) (state : GameState) : GameState :=
  mkGameState (playerHealth state) (playerMaxHealth state)
    (playerSpeed state) (playerDamage state) (score state + amount)
    (level state) (playerTankPosition state) (enemies state)
    (powerUps state) (isGameOver state) (isPaused state).

Definition removeEnemy (i : String.string) (state : GameState) : GameState :=
  mkGameState (playerHealth state) (playerMaxHealth state)
    (playerSpeed state) (playerDamage state) (score state) (level state)
    (playerTankPosition state)
    (filter (fun enemy => negb (String.eqb (id enemy) i)) (enemies state))
    (powerUps state) (isGameOver state) (isPaused state).

Definition collectPowerUp (i : String.string) (state : GameState)
    : GameState :=
  match find (fun p => String.eqb (powerUp_id p) i) (powerUps state) with
  | None => state
  | Some powerUp =>
      let newPowerUps :=
        filter (fun p => negb (String.eqb (powerUp_id p) i))
               (powerUps state) in
      match powerUp_type powerUp with
      | healthPowerUp =>
          mkGameState
            (Qmin (playerMaxHealth state) (playerHealth state + 25))
            (playerMaxHealth state) (playerSpeed state) (playerDamage state)
            (score state) (level state) (playerTankPosition state)
            (enemies state) newPowerUps (isGameOver state) (isPaused state)
      | speedPowerUp =>
          mkGameState (playerHealth state) (playerMaxHealth state)
            (playerSpeed state + 0.5) (playerDamage state) (score state)
            (level state) (playerTankPosition state) (enemies state)
            newPowerUps (isGameOver state) (isPaused state)
      | damagePowerUp =>
          mkGameState (playerHealth state) (playerMaxHealth state)
            (playerSpeed state) (playerDamage state + 5) (score state)
            (level state) (playerTankPosition state) (enemies state)
            newPowerUps (isGameOver state) (isPaused state)
      end
  end.

Definition restartGame (state : GameState) : GameState :=
  mkGameState 100 100 3 25 0 1 (0, 0.5, 0) [] [] false false.

Definition togglePause (state : GameState) : GameState :=
  mkGameState (playerHealth state) (playerMaxHealth state)
    (playerSpeed state) (playerDamage state) (score state) (level state)
    (playerTankPosition state) (enemies state) (powerUps state)
    (isGameOver state) (negb (isPaused state)).

Definition advanceLevel (state : GameState) : GameState :=
  mkGameState (playerHealth state + 10) (playerMaxHealth state + 10)
    (playerSpeed state) (playerDamage state) (score state)
    (level state + 1)%Z (playerTankPosition state) (enemies state)
    (powerUps state) (isGameOver state) (isPaused state).

Section Ids.

(** [randomId k] is the string [Math.random().toString(36).substr(2, 9)]
    printed from the [k]-th draw. *)
Variable randomId : nat -> String.string.

Definition spawnEnemy (enemy : NewEnemy) (state : GameState) (c : nat)
    : GameState * nat :=
  (mkGameState (playerHealth state) (playerMaxHealth state)
     (playerSpeed state) (playerDamage state) (score state) (level state)
     (playerTankPosition state)
     (enemies state
      ++ [mkEnemy (randomId c) (new_position enemy) (new_health enemy)
            (new_type enemy)])
     (powerUps state) (isGameOver state) (isPaused state),
   S c).

Definition spawnPowerUp (powerUp : NewPowerUp) (state : GameState) (c : nat)
    : GameState * nat :=
  (mkGameState (playerHealth state) (playerMaxHealth state)
     (playerSpeed state) (playerDamage state) (score state) (level state)
     (playerTankPosition state) (enemies state)
     (powerUps state
      ++ [mkPowerUp (randomId c) (newPowerUp_position powerUp)
            (newPowerUp_type powerUp)])
     (isGameOver state) (isPaused state),
   S c).

(** A call of one action of the store. *)
Inductive Action : Type :=
  | TakeDamage (amount : Q)
  | HealPlayer (amount : Q)
  | IncreaseScore (amount : Q)
  | SpawnEnemy (enemy : NewEnemy)
  | RemoveEnemy (i : String.string)
  | SpawnPowerUp (powerUp : NewPowerUp)
  | CollectPowerUp (i : String.string)
  | RestartGame
  | TogglePause
  | AdvanceLevel.

Definition dispatch (a : Action) (state : GameState) (c : nat)
    : GameState * nat :=
  match a with
  | TakeDamage amount => (takeDamage amount state, c)
  | HealPlayer amount => (healPlayer amount state, c)
  | IncreaseScore amount => (increaseScore amount state, c)
  | SpawnEnemy enemy => spawnEnemy enemy state c
  | RemoveEnemy i => (removeEnemy i state, c)
  | SpawnPowerUp powerUp => spawnPowerUp powerUp state c
  | CollectPowerUp i => (collectPowerUp i state, c)
  | RestartGame => (restartGame state, c)
  | TogglePause => (togglePause state, c)
  | AdvanceLevel => (advanceLevel state, c)
  end.

(** A sequence of calls, first to last. *)
Fixpoint run (actions : list Action) (state : GameState) (c : nat)
    : GameState * nat :=
  match actions with
  | [] => (state, c)
  | a :: rest => let (state', c') := dispatch a state c in run rest state' c'
  end.

End Ids.

(** ** Health *)

(** [takeDamage] never leaves the health negative; it sets [isGameOver]
    exactly when the damage is at least the current health, which is
    exactly when the new health is 0, and clears it otherwise; a
    non-negative damage never raises a non-negative health. *)
Theorem takeDamage_health (amount : Q) (state : GameState) :
  0 <= playerHealth (takeDamage amount state) /\
  (isGameOver (takeDamage amount state) = true
   <-> playerHealth state <= amount) /\
  (isGameOver (takeDamage amount state) = true
   <-> playerHealth (takeDamage amount state) == 0) /\
  (0 <= amount -> 0 <= playerHealth state ->
   playerHealth (takeDamage amount state) <= playerHealth state).
Proof.
  unfold takeDamage. cbn [playerHealth isGameOver].
  destruct (Q.max_spec 0 (playerHealth state - amount))
    as [ [ L E ] | [ L E ] ]; rewrite Qle_bool_iff, E;
    (split; [ lra | ]); (split; [ split; intro; lra | ]);
    (split; [ split; intro; lra | intros; lra ]).
Qed.

(** [healPlayer] never leaves the health above the maximum and never
    touches [isGameOver]; for a non-negative amount and a health within
    the maximum it never lowers the health. *)
Theorem healPlayer_capped (amount : Q) (state : GameState) :
  playerHealth (healPlayer amount state) <= playerMaxHealth state /\
  isGameOver (healPlayer amount state) = isGameOver state /\
  (0 <= amount -> playerHealth state <= playerMaxHealth state ->
   playerHealth state <= playerHealth (healPlayer amount state)).
Proof.
  unfold healPlayer. cbn [playerHealth isGameOver].
  destruct (Q.min_spec (playerMaxHealth state) (playerHealth state + amount))
    as [ [ L E ] | [ L E ] ]; rewrite E;
    (split; [ lra | ]); (split; [ reflexivity | intros; lra ]).
Qed.

(** Healing after a lethal hit: the health is positive again, and the
    game is still over. *)
Theorem heal_after_lethal_hit (damage amount : Q) (state : GameState) :
  playerHealth state <= damage -> 0 < amount -> 0 < playerMaxHealth state ->
  0 < playerHealth (healPlayer amount (takeDamage damage state)) /\
  isGameOver (healPlayer amount (takeDamage damage state)) = true.
Proof.
  intros D A M. unfold healPlayer, takeDamage.
  cbn [playerHealth playerMaxHealth isGameOver].
  destruct (Q.max_spec 0 (playerHealth state - damage))
    as [ [ L E ] | [ L E ] ]; [ lra | ].
  split.
  - destruct (Q.min_spec (playerMaxHealth state)
                (Qmax 0 (playerHealth state - damage) + amount))
      as [ [ L' E' ] | [ L' E' ] ]; rewrite E'; lra.
  - apply Qle_bool_iff. rewrite E. apply Qle_refl.
Qed.

Lemma heal_after_lethal_hit_witness :
  0 < playerHealth (healPlayer 25 (takeDamage 150 initialState)) /\
  isGameOver (healPlayer 25 (takeDamage 150 initialState)) = true.
Proof.
  apply heal_after_lethal_hit; reflexivity || (intro H; discriminate H).
Defined.


(** ** Enemies *)

Lemma filter_keeps_all {A : Type} (f : A -> bool) (l : list A) :
  (forall a, In a l -> f a = true) -> filter f l = l.
Proof.
  induction l as [ | a l IH ]; intro H; cbn [filter].
  - reflexivity.
  - rewrite (H a (or_introl eq_refl)). f_equal.
    apply IH. intros b I. apply H. right. exact I.
Qed.

(** [removeEnemy]: afterwards no enemy has the id; every enemy with
    another id is kept; no enemy is added; and when no enemy has the id,
    the store is unchanged. *)
Theorem removeEnemy_removes (i : String.string) (state : GameState) :
  (forall enemy, In enemy (enemies (removeEnemy i state)) -> id enemy <> i)
  /\
  (forall enemy, In enemy (enemies state) -> id enemy <> i ->
                 In enemy (enemies (removeEnemy i state))) /\
  (forall enemy, In enemy (enemies (removeEnemy i state)) ->
                 In enemy (enemies state)) /\
  ((forall enemy, In enemy (enemies state) -> id enemy <> i) ->
   removeEnemy i state = state).
Proof.
  unfold removeEnemy. cbn [enemies]. repeat split.
  - intros enemy I. apply filter_In in I. destruct I as [ _ N ].
    apply negb_true_iff, String.eqb_neq in N. exact N.
  - intros enemy I N. apply filter_In. split; [ exact I | ].
    apply negb_true_iff, String.eqb_neq. exact N.
  - intros enemy I. apply filter_In in I. apply I.
  - intro H. rewrite filter_keeps_all.
    + destruct state; reflexivity.
    + intros enemy I. apply negb_true_iff, String.eqb_neq. apply H. exact I.
Qed.

(** Round trip: spawning an enemy and removing it by the id it was given
    gives back the store, provided no enemy already had that id. *)
Theorem spawnEnemy_removeEnemy (randomId : nat -> String.string)
    (enemy : NewEnemy) (state : GameState) (c : nat) :
  (forall e, In e (enemies state) -> id e <> randomId c) ->
  removeEnemy (randomId c) (fst (spawnEnemy randomId enemy state c)) = state.
Proof.
  intro H. unfold spawnEnemy, removeEnemy.
  cbn [fst enemies playerHealth playerMaxHealth playerSpeed playerDamage
       score level playerTankPosition powerUps isGameOver isPaused].
  rewrite filter_app. cbn [filter id].
  rewrite String.eqb_refl. cbn [negb]. rewrite app_nil_r.
  rewrite filter_keeps_all.
  - destruct state; reflexivity.
  - intros e I. apply negb_true_iff, String.eqb_neq. apply H. exact I.
Qed.

Lemma spawnEnemy_removeEnemy_witness :
  removeEnemy "k3x"%string
    (fst (spawnEnemy (fun _ => "k3x"%string)
            (mkNewEnemy (10, 0.5, 10) 85 tank) initialState 0))
  = initialState.
Proof.
  apply (spawnEnemy_removeEnemy (fun _ => "k3x"%string)
           (mkNewEnemy (10, 0.5, 10) 85 tank) initialState 0).
  intros e [].
Defined.

(** When an enemy already has the id the new one is given, removing by
    that id takes both: the store ends with fewer enemies than before
    the spawn. *)
Theorem spawnEnemy_id_collision (randomId : nat -> String.string)
    (enemy : NewEnemy) (state : GameState) (c : nat) :
  (exists e, In e (enemies state) /\ id e = randomId c) ->
  (length (enemies (removeEnemy (randomId c)
                      (fst (spawnEnemy randomId enemy state c))))
   < length (enemies state))%nat.
Proof.
  intros (e & I & E). unfold spawnEnemy, removeEnemy. cbn [fst enemies].
  rewrite filter_app. cbn [filter id].
  rewrite String.eqb_refl. cbn [negb]. rewrite app_nil_r.
  induction (enemies state) as [ | h l IH ]; [ destruct I | ].
  cbn [filter length]. destruct I as [ -> | I ].
  - rewrite E, String.eqb_refl. cbn [negb].
    pose proof (filter_length_le
                  (fun enemy0 => negb (String.eqb (id enemy0) (randomId c)))
                  l). lia.
  - specialize (IH I).
    destruct (negb (String.eqb (id h) (randomId c))); cbn [length]; lia.
Qed.

(** A store whose only enemy has the id the next spawn will get. *)
Definition twinState : GameState :=
  mkGameState 100 100 3 25 0 1 (0, 0.5, 0)
    [mkEnemy "k3x"%string (5, 0.5, 5) 60 turret] [] false false.

Definition newTank : NewEnemy := mkNewEnemy (10, 0.5, 10) 85 tank.

Lemma spawnEnemy_id_collision_witness :
  (length (enemies
             (removeEnemy "k3x"%string
                (fst (spawnEnemy (fun _ => "k3x"%string) newTank twinState
                        0))))
   < length (enemies twinState))%nat.
Proof.
  apply (spawnEnemy_id_collision (fun _ => "k3x"%string)).
  eexists. split; [ left; reflexivity | reflexivity ].
Defined.

(** ** Power-ups *)

Lemma find_none_intro {A : Type} (f : A -> bool) (l : list A) :
  (forall a, In a l -> f a = false) -> find f l = None.
Proof.
  induction l as [ | a l IH ]; intro H; cbn [find].
  - reflexivity.
  - rewrite (H a (or_introl eq_refl)). apply IH.
    intros b I. apply H. right. exact I.
Qed.

Lemma collectPowerUp_missing (i : String.string) (state : GameState) :
  (forall p, In p (powerUps state) -> powerUp_id p <> i) ->
  collectPowerUp i state = state.
Proof.
  intro H. unfold collectPowerUp. rewrite find_none_intro; [ reflexivity | ].
  intros p I. apply String.eqb_neq. apply H. exact I.
Qed.

Lemma collectPowerUp_powerUps (i : String.string) (state : GameState) :
  powerUps (collectPowerUp i state)
  = filter (fun p => negb (String.eqb (powerUp_id p) i)) (powerUps state).
Proof.
  unfold collectPowerUp.
  destruct (find (fun p => String.eqb (powerUp_id p) i) (powerUps state))
    as [ powerUp | ] eqn:F.
  - destruct (powerUp_type powerUp); reflexivity.
  - symmetry. apply filter_keeps_all. intros p I.
    apply negb_true_iff. exact (List.find_none _ _ F p I).
Qed.

(** [collectPowerUp]: an id no power-up has leaves the store unchanged;
    otherwise every power-up with that id is removed and no other, so
    that collecting the same id a second time changes nothing; the
    enemies are never touched; and the health never ends above both its
    old value and the maximum. *)
Theorem collectPowerUp_once (i : String.string) (state : GameState) :
  ((forall p, In p (powerUps state) -> powerUp_id p <> i) ->
   collectPowerUp i state = state) /\
  (forall p, In p (powerUps (collectPowerUp i state)) <->
             In p (powerUps state) /\ powerUp_id p <> i) /\
  collectPowerUp i (collectPowerUp i state) = collectPowerUp i state /\
  enemies (collectPowerUp i state) = enemies state /\
  playerHealth (collectPowerUp i state)
  <= Qmax (playerHealth state) (playerMaxHealth state).
Proof.
  assert (K : forall p, In p (powerUps (collectPowerUp i state)) <->
                        In p (powerUps state) /\ powerUp_id p <> i).
  { intro p. rewrite collectPowerUp_powerUps, filter_In.
    rewrite negb_true_iff, String.eqb_neq. reflexivity. }
  split; [ apply collectPowerUp_missing | ].
  split; [ exact K | ].
  split; [ apply collectPowerUp_missing; intros p I; apply K in I; apply I | ].
  unfold collectPowerUp.
  destruct (find (fun p => String.eqb (powerUp_id p) i) (powerUps state))
    as [ powerUp | ].
  - destruct (powerUp_type powerUp); cbn [enemies playerHealth];
      (split; [ reflexivity | ]).
    + apply Qle_trans with (playerMaxHealth state);
        [ apply Q.le_min_l | apply Q.le_max_r ].
    + apply Q.le_max_l.
    + apply Q.le_max_l.
  - split; [ reflexivity | apply Q.le_max_l ].
Qed.

(** ** An invariant of the store *)

(** Damage, healing and score amounts that are not negative. *)
Definition nonNegative (a : Action) : Prop :=
  match a with
  | TakeDamage amount | HealPlayer amount | IncreaseScore amount =>
      0 <= amount
  | _ => True
  end.

(** The health is between 0 and the maximum, the maximum is 100 plus 10
    per level gained, the level is at least 1, speed and damage are at
    least their initial values, and the score is not negative. *)
Definition healthy (state : GameState) : Prop :=
  0 <= playerHealth state /\
  playerHealth state <= playerMaxHealth state /\
  playerMaxHealth state == 100 + 10 * inject_Z (level state - 1) /\
  (1 <= level state)%Z /\
  3 <= playerSpeed state /\
  25 <= playerDamage state /\
  0 <= score state.

Lemma dispatch_healthy (randomId : nat -> String.string) (a : Action)
    (state : GameState) (c : nat) :
  nonNegative a -> healthy state ->
  healthy (fst (dispatch randomId a state c)).
Proof.
  intros N (H0 & H1 & H2 & H3 & H4 & H5 & H6).
  destruct a; cbn [dispatch fst nonNegative] in *.
  - unfold takeDamage, healthy.
    cbn [playerHealth playerMaxHealth level playerSpeed playerDamage score].
    destruct (Q.max_spec 0 (playerHealth state - amount))
      as [ [ L E ] | [ L E ] ]; rewrite E; repeat split; try assumption; lra.
  - unfold healPlayer, healthy.
    cbn [playerHealth playerMaxHealth level playerSpeed playerDamage score].
    destruct (Q.min_spec (playerMaxHealth state)
                (playerHealth state + amount))
      as [ [ L E ] | [ L E ] ]; rewrite E; repeat split; try assumption; lra.
  - unfold increaseScore, healthy.
    cbn [playerHealth playerMaxHealth level playerSpeed playerDamage score].
    repeat split; try assumption; lra.
  - unfold spawnEnemy, healthy.
    cbn [fst playerHealth playerMaxHealth level playerSpeed playerDamage
         score].
    repeat split; assumption.
  - unfold removeEnemy, healthy.
    cbn [playerHealth playerMaxHealth level playerSpeed playerDamage score].
    repeat split; assumption.
  - unfold spawnPowerUp, healthy.
    cbn [fst playerHealth playerMaxHealth level playerSpeed playerDamage
         score].
    repeat split; assumption.
  - unfold collectPowerUp.
    destruct (find (fun p => String.eqb (powerUp_id p) i) (powerUps state))
      as [ powerUp | ]; [ | repeat split; assumption ].
    destruct (powerUp_type powerUp); unfold healthy;
      cbn [playerHealth playerMaxHealth level playerSpeed playerDamage
           score].
    + destruct (Q.min_spec (playerMaxHealth state) (playerHealth state + 25))
        as [ [ L E ] | [ L E ] ]; rewrite E;
        repeat split; try assumption; lra.
    + repeat split; try assumption; lra.
    + repeat split; try assumption; lra.
  - unfold restartGame, healthy.
    cbn [playerHealth playerMaxHealth level playerSpeed playerDamage score].
    repeat split; try reflexivity; try (intro H; discriminate H); lia.
  - unfold togglePause, healthy.
    cbn [playerHealth playerMaxHealth level playerSpeed playerDamage score].
    repeat split; assumption.
  - unfold advanceLevel, healthy.
    cbn [playerHealth playerMaxHealth level playerSpeed playerDamage score].
    replace (level state + 1 - 1)%Z with ((level state - 1) + 1)%Z by lia.
    rewrite inject_Z_plus. change (inject_Z 1) with 1.
    repeat split; try assumption; try lra; lia.
Qed.

(** Whatever sequence of actions with non-negative amounts is run on the
    initial store, and whatever ids the spawns get, the store stays
    [healthy]. *)
Theorem run_healthy (randomId : nat -> String.string)
    (actions : list Action) (c : nat) :
  Forall nonNegative actions ->
  healthy (fst (run randomId actions initialState c)).
Proof.
  assert (G : forall l state c0,
            Forall nonNegative l -> healthy state ->
            healthy (fst (run randomId l state c0))).
  { induction l as [ | a l IH ]; intros state c0 F H; cbn [run].
    - exact H.
    - inversion F as [ | a' l' Na Fl ]; subst.
      pose proof (dispatch_healthy randomId a state c0 Na H) as D.
      destruct (dispatch randomId a state c0) as [ state' c' ].
      apply IH; assumption. }
  intro F. apply G; [ exact F | ].
  unfold healthy, initialState.
  cbn [playerHealth playerMaxHealth level playerSpeed playerDamage score].
  repeat split; try reflexivity; try (intro H; discriminate H); lia.
Qed.

(** A level gained, a hit, a power-up that is not there, and a heal. *)
Definition sampleActions : list Action :=
  [ AdvanceLevel; TakeDamage 30; CollectPowerUp "k3x"%string; HealPlayer 50 ].

Lemma run_healthy_witness :
  healthy (fst (run (fun _ => "k3x"%string) sampleActions initialState 0)).
Proof.
  apply run_healthy. unfold sampleActions.
  repeat constructor; intro H; discriminate H.
Defined.

End Store.
